(** * tests_config/run_spec.js: the conformance-test driver of prettier-python

    A shallow embedding of [run_spec.js] and the properties of its
    interpreter resolution, fixture enumeration, cross-parser verification
    and structural round-trip check.

    Conventions of the embedding.
    - JavaScript strings are [string], the bytes of their UTF-8 encoding:
      the strings of the driver are decoded from UTF-8 (standard output,
      files), and what the code looks for in them (CR, LF, ".", white space)
      is found as byte sequences.
    - JSON-like values (syntax trees, option values) are [JsVal]; an object
      is the list of its own enumerable properties in [for ... in] order.
    - Option sets are finite maps from field names to values; the one option
      object that is mutated after its creation ([mergedOptions]) lives in a
      store of objects and is referred to by its location.
    - Everything outside the file (the interpreter probe, [semver], the file
      system, [path], [prettier], Jest's matchers) is a field of the class
      [Host]; the driver and its properties are stated for any host.
    - The two interpreter tracks are resolved when the file is loaded; the
      functions of the file are stated for a loaded file, the class
      [Loaded], which holds the two bindings. *)

From Stdlib Require Import String Ascii List ZArith Bool Lia.
From stdpp Require Import base option list gmap strings.

Import ListNotations.
Local Open Scope string_scope.
Local Open Scope list_scope.
Set Warnings "-register-all".
Set Default Proof Using "Type".

(** ** Strings *)

Module Str.

Definition CR : ascii := ascii_of_nat 13.
Definition LF : ascii := ascii_of_nat 10.
Definition CRLF : string := String CR (String LF EmptyString).

(** [s.replace(/\r\n/g, "\n")]: one pass from the left, every match
    replaced, the scan resuming after the match. *)
Fixpoint replace_crlf (s : string) : string :=
  match s with
  | EmptyString => EmptyString
  | String c rest =>
      match rest with
      | String d rest' =>
          if (Ascii.eqb c CR && Ascii.eqb d LF)%bool
          then String LF (replace_crlf rest')
          else String c (replace_crlf rest)
      | EmptyString => String c EmptyString
      end
  end.

(** [sub] occurs in [s]. *)
Definition Contains (s sub : string) : Prop :=
  exists pre post, s = pre +:+ sub +:+ post.

Fixpoint starts_with (p s : string) : bool :=
  match p, s with
  | EmptyString, _ => true
  | String a p', String b s' => Ascii.eqb a b && starts_with p' s'
  | String _ _, EmptyString => false
  end.

Fixpoint contains (sub s : string) : bool :=
  starts_with sub s ||
  match s with
  | EmptyString => false
  | String _ s' => contains sub s'
  end.

(** The string of the given bytes. *)
Fixpoint of_bytes (bs : list nat) : string :=
  match bs with
  | [] => EmptyString
  | b :: rest => String (ascii_of_nat b) (of_bytes rest)
  end.

(** The white space and the line terminators of ECMAScript, as UTF-8
    encodes them: TAB, LF, VT, FF, CR, SP, then U+00A0, U+1680, U+2000 to
    U+200A, U+2028, U+2029, U+202F, U+205F, U+3000 and U+FEFF. *)
Definition white_space : list string :=
  List.map of_bytes
    [[9]; [10]; [11]; [12]; [13]; [32]; [194; 160]; [225; 154; 128];
     [226; 128; 128]; [226; 128; 129]; [226; 128; 130]; [226; 128; 131];
     [226; 128; 132]; [226; 128; 133]; [226; 128; 134]; [226; 128; 135];
     [226; 128; 136]; [226; 128; 137]; [226; 128; 138];
     [226; 128; 168]; [226; 128; 169]; [226; 128; 175]; [226; 129; 159];
     [227; 128; 128]; [239; 187; 191]].

(** [s] without its prefix [p], if it starts with it. *)
Fixpoint strip_prefix (p s : string) : option string :=
  match p, s with
  | EmptyString, _ => Some s
  | String a p', String b s' => if Ascii.eqb a b then strip_prefix p' s' else None
  | String _ _, EmptyString => None
  end.

(** [s] without the first of [seqs] that it starts with. *)
Fixpoint after_first (seqs : list string) (s : string) : option string :=
  match seqs with
  | [] => None
  | w :: rest =>
      match strip_prefix w s with
      | Some r => Some r
      | None => after_first rest s
      end
  end.

(** [s] without the members of [seqs] it starts with, one after the other;
    the length of [s] is fuel enough. *)
Fixpoint drop_leading (seqs : list string) (fuel : nat) (s : string) : string :=
  match fuel with
  | O => s
  | S fuel' =>
      match after_first seqs s with
      | Some r => drop_leading seqs fuel' r
      | None => s
      end
  end.

Fixpoint rev_onto (s acc : string) : string :=
  match s with
  | EmptyString => acc
  | String c rest => rev_onto rest (String c acc)
  end.

Definition reverse (s : string) : string := rev_onto s EmptyString.

Definition trimStart (s : string) : string :=
  drop_leading white_space (String.length s) s.

Definition trimEnd (s : string) : string :=
  reverse (drop_leading (List.map reverse white_space) (String.length s) (reverse s)).

(** [String.prototype.trim]. *)
Definition trim (s : string) : string := trimEnd (trimStart s).

(** A concatenation of members of [seqs]. *)
Inductive Blank (seqs : list string) : string -> Prop :=
| Blank_nil : Blank seqs EmptyString
| Blank_cons w s : w ∈ seqs -> Blank seqs s -> Blank seqs (w +:+ s).

(** [v] is [s] without the white space at its two ends: [s] is [v] between
    two runs of white space, and [v] neither starts nor ends with any. *)
Definition Trimmed (s v : string) : Prop :=
  (exists pre post,
     s = pre +:+ v +:+ post /\ Blank white_space pre /\ Blank white_space post)
  /\ forall w, w ∈ white_space ->
       (forall post, v <> w +:+ post) /\ (forall pre, v <> pre +:+ w).

(** ["~".repeat(n)] and the like. *)
Fixpoint repeat (s : string) (n : nat) : string :=
  match n with
  | O => EmptyString
  | S n' => s +:+ repeat s n'
  end.

End Str.

(** ** JSON-like values *)

(** Values as JSON has them, and [undefined].  The driver never computes
    with a number, it only compares a length with zero: integers stand for
    them.  An object is the list of its own enumerable properties, in the
    order [for ... in] visits them. *)
Inductive JsVal : Type :=
| JUndefined
| JNull
| JBool (b : bool)
| JNum (n : Z)
| JStr (s : string)
| JArr (elems : list JsVal)
| JObj (props : list (string * JsVal)).

(** [obj[key] = v] on the property list: an existing property keeps its
    place, a new one goes last.  That is the assignment for every key but
    [__proto__], which sets the prototype of the object and adds no
    property: trees with such a key are outside the model (see
    [proto_free]). *)
Fixpoint obj_set (props : list (string * JsVal)) (key : string) (v : JsVal)
  : list (string * JsVal) :=
  match props with
  | [] => [(key, v)]
  | (k, w) :: rest =>
      if String.eqb k key then (k, v) :: rest
      else (k, w) :: obj_set rest key v
  end.

(** [obj[key]] for an own property; [None] stands for a missing one. *)
Fixpoint obj_get (props : list (string * JsVal)) (key : string) : option JsVal :=
  match props with
  | [] => None
  | (k, w) :: rest => if String.eqb k key then Some w else obj_get rest key
  end.

(** [typeof v === "object"]: true of objects, arrays and [null]. *)
Definition typeof_object (v : JsVal) : bool :=
  match v with
  | JNull | JArr _ | JObj _ => true
  | _ => false
  end.

(** [stripExtraNonComparableKeys]: arrays are mapped, anything else whose
    [typeof] is ["object"] is rebuilt from its properties without ["text"],
    the rest is returned as it is.  [null] has [typeof] ["object"] and no
    properties to enumerate, so it takes the second branch. *)
Fixpoint stripExtraNonComparableKeys (ast : JsVal) : JsVal :=
  match ast with
  | JArr elems => JArr (List.map stripExtraNonComparableKeys elems)
  | JObj props =>
      JObj
        ((fix for_in (ps : list (string * JsVal)) (newObj : list (string * JsVal)) :=
            match ps with
            | [] => newObj
            | (key, v) :: rest =>
                if String.eqb key "text" then for_in rest newObj
                else for_in rest (obj_set newObj key (stripExtraNonComparableKeys v))
            end) props [])
  | JNull => JObj []
  | JUndefined | JBool _ | JNum _ | JStr _ => ast
  end.

(** The loop of the object case, on its own. *)
Fixpoint for_in (ps newObj : list (string * JsVal)) : list (string * JsVal) :=
  match ps with
  | [] => newObj
  | (key, v) :: rest =>
      if String.eqb key "text" then for_in rest newObj
      else for_in rest (obj_set newObj key (stripExtraNonComparableKeys v))
  end.

(** The properties of an object without ["text"], each value stripped. *)
Definition strip_props (ps : list (string * JsVal)) : list (string * JsVal) :=
  List.map (fun kv => (fst kv, stripExtraNonComparableKeys (snd kv)))
           (List.filter (fun kv => negb (String.eqb (fst kv) "text")) ps).

(** Some object of the tree, at any depth, has a property ["text"]. *)
Fixpoint has_text_key (v : JsVal) : bool :=
  match v with
  | JArr elems => existsb has_text_key elems
  | JObj props =>
      existsb (fun kv => String.eqb (fst kv) "text" || has_text_key (snd kv)) props
  | _ => false
  end.

(** A scalar: neither an array nor an object. *)
Definition is_scalar (v : JsVal) : bool :=
  match v with
  | JArr _ | JObj _ => false
  | _ => true
  end.

(** No string occurs twice. *)
Fixpoint distinct (keys : list string) : bool :=
  match keys with
  | [] => true
  | key :: rest => negb (existsb (String.eqb key) rest) && distinct rest
  end.

(** A tree as the extra normalization step leaves one: no [null], no
    property ["text"], no property listed twice, at any depth. *)
Fixpoint stripped (v : JsVal) : bool :=
  match v with
  | JNull => false
  | JArr elems => forallb stripped elems
  | JObj props =>
      distinct (List.map fst props)
      && forallb (fun kv => negb (String.eqb (fst kv) "text") && stripped (snd kv)) props
  | JUndefined | JBool _ | JNum _ | JStr _ => true
  end.

(** What makes the properties of an object stripped. *)
Definition stripped_props (ps : list (string * JsVal)) : Prop :=
  NoDup (List.map fst ps)
  /\ Forall (fun kv => fst kv <> "text" /\ stripped (snd kv) = true) ps.

(** No object of the tree, at any depth, has a property named [__proto__]. *)
Fixpoint proto_free (v : JsVal) : bool :=
  match v with
  | JArr elems => forallb proto_free elems
  | JObj props =>
      forallb (fun kv => negb (String.eqb (fst kv) "__proto__") && proto_free (snd kv))
              props
  | JUndefined | JNull | JBool _ | JNum _ | JStr _ => true
  end.

(** [!!v]: the truth value of [v] in a condition. *)
Definition truthy (v : JsVal) : bool :=
  match v with
  | JUndefined | JNull => false
  | JBool b => b
  | JNum n => negb (n =? 0)%Z
  | JStr s => negb (String.eqb s EmptyString)
  | JArr _ | JObj _ => true
  end.

(** ** Results, errors and expectations *)

(** An [Error] object: its message and the stack captured at its creation. *)
Record JsError : Type := mkJsError { message : string; stack : string }.

Inductive Res (E A : Type) : Type :=
| Ok (a : A)
| Throw (e : E).
Arguments Ok {E A} a.
Arguments Throw {E A} e.

Definition res_bind {E A B} (r : Res E A) (k : A -> Res E B) : Res E B :=
  match r with
  | Ok a => k a
  | Throw e => Throw e
  end.

Definition res_map {E A B} (f : A -> B) (r : Res E A) : Res E B :=
  res_bind r (fun a => Ok (f a)).

(** A loop that threads a value through calls that return or throw: the
    first throw ends it. *)
Fixpoint res_fold {E A B} (f : B -> A -> Res E B) (xs : list A) (b : B) : Res E B :=
  match xs with
  | [] => Ok b
  | x :: rest => res_bind (f b x) (res_fold f rest)
  end.

(** The call returned [true]. *)
Definition returned_true {E} (r : Res E bool) : bool :=
  match r with
  | Ok b => b
  | Throw _ => false
  end.

(** The marker object of [raw]: the string under the key [Symbol.for("raw")]. *)
Record RawMarker : Type := mkRaw { raw_string : string }.

(** [expect(actual).matcher(expected)], one constructor per matcher in use. *)
Inductive Expectation : Type :=
| ToBeGreaterThan (actual expected : nat)
| ToEqualNumber (actual expected : nat)
| ToMatchSnapshot (actual : RawMarker) (hint : string)
| ToEqualString (actual expected : string)
| ToBeNull (actual : JsVal)
| ToBeDefined (actual : JsVal)
| ToEqual (actual expected : JsVal).

(** What makes a test fail: an exception, or an expectation that is not met. *)
Inductive Failure : Type :=
| Thrown (e : JsError)
| AssertionFailed (e : Expectation).

(** ** Option sets and the object store *)

Abbreviation Options := (gmap string JsVal).

(** [Object.assign(target, source)]: the properties of [source] win. *)
Definition object_assign (target source : Options) : Options := source ∪ target.

(** [Object.assign(target, source)] where [source] may be [undefined]. *)
Definition object_assign_opt (target : Options) (source : option Options) : Options :=
  match source with
  | Some src => object_assign target src
  | None => target
  end.

(** Objects that are shared and mutated live in the store; a location is
    an index into it. *)
Abbreviation Store := (list Options).
Abbreviation loc := nat.

(** ** Test bodies: computations over the store that may fail *)

Definition TestM (A : Type) : Type := Store -> Store * Res Failure A.

Definition t_ret {A} (a : A) : TestM A := fun h => (h, Ok a).

Definition t_bind {A B} (m : TestM A) (k : A -> TestM B) : TestM B :=
  fun h => match m h with
           | (h', Ok a) => k a h'
           | (h', Throw e) => (h', Throw e)
           end.

(** A call into outside code that returns or throws. *)
Definition t_call {A} (r : Res JsError A) : TestM A :=
  fun h => (h, match r with Ok a => Ok a | Throw e => Throw (Thrown e) end).

(** Reading the object at a location. *)
Definition t_deref (l : loc) : TestM Options := fun h => (h, Ok (h !!! l)).

(** [Object.assign(l, source)] on the object at [l], in place; the value of
    the call is the target itself. *)
Definition t_assign (l : loc) (source : Options) : TestM loc :=
  fun h => (<[l := object_assign (h !!! l) source]> h, Ok l).

Declare Scope test_scope.
Delimit Scope test_scope with test.
Notation "'do' x <- m ; k" := (t_bind m (fun x => k))
  (at level 10, x name, m at level 100, k at level 200) : test_scope.
Notation "m ;; k" := (t_bind m (fun _ => k))
  (at level 100, k at level 200, right associativity) : test_scope.

Record Test : Type := mkTest { test_name : string; test_fn : TestM unit }.

(** ** The driver's own state: the store, the tests registered with Jest so
    far, and the file-system calls made so far *)

Inductive FsEvent : Type :=
| ReadDir (dirname : string)
| ReadFile (path : string).

Record State : Type := mkState {
  store : Store;
  tests : list Test;
  fs_log : list FsEvent
}.

Definition M (A : Type) : Type := State -> State * Res JsError A.

Definition ret {A} (a : A) : M A := fun st => (st, Ok a).

Definition bind {A B} (m : M A) (k : A -> M B) : M B :=
  fun st => match m st with
            | (st', Ok a) => k a st'
            | (st', Throw e) => (st', Throw e)
            end.

Definition throw {A} (e : JsError) : M A := fun st => (st, Throw e).

Definition call {A} (r : Res JsError A) : M A := fun st => (st, r).

Declare Scope run_scope.
Delimit Scope run_scope with run.
Notation "'do' x <- m ; k" := (bind m (fun x => k))
  (at level 10, x name, m at level 100, k at level 200) : run_scope.
Notation "m ;; k" := (bind m (fun _ => k))
  (at level 100, k at level 200, right associativity) : run_scope.

(** [xs.forEach(f)] for a callback with effects. *)
Fixpoint forEach {A} (xs : list A) (f : A -> M unit) : M unit :=
  match xs with
  | [] => ret tt
  | x :: rest => bind (f x) (fun _ => forEach rest f)
  end.

(** Jest's [test(name, fn)]: the test is added to the end of the registry;
    its body runs later, once the file that registers it has been loaded. *)
Definition test (name : string) (fn : TestM unit) : M unit :=
  fun st => (mkState (store st) (tests st ++ [mkTest name fn]) (fs_log st), Ok tt).

(** Running a registered test on a store: the store it leaves, and whether
    it passed. *)
Definition run_test (t : Test) (h : Store) : Store * Res Failure unit := test_fn t h.

(** A variable of [process.env] in a condition: set and not empty. *)
Definition env_truthy (v : option string) : bool :=
  match v with
  | Some s => negb (String.eqb s EmptyString)
  | None => false
  end.

(** A fresh object with the given properties; its location is returned. *)
Definition new_object (o : Options) : M loc :=
  fun st => (mkState (store st ++ [o]) (tests st) (fs_log st), Ok (length (store st))).

Definition deref (l : loc) : M Options := fun st => (st, Ok (store st !!! l)).

Definition log_fs (e : FsEvent) : M unit :=
  fun st => (mkState (store st) (tests st) (fs_log st ++ [e]), Ok tt).

(** A run only ever adds: objects to the store, tests to the registry,
    events to the log. *)
Definition grows (s s' : State) : Prop :=
  (exists hs, store s' = store s ++ hs)
  /\ (exists ts, tests s' = tests s ++ ts)
  /\ (exists es, fs_log s' = fs_log s ++ es).

Definition monotone {A} (m : M A) : Prop := forall s, grows s (fst (m s)).

(** [raw]: the argument is a string by its type, so the guard that throws on
    anything else is never taken. *)
Definition raw (s : string) : RawMarker := mkRaw s.

(** [filename[0]], [undefined] on the empty string. *)
Definition first_char (s : string) : option ascii :=
  match s with
  | String c _ => Some c
  | EmptyString => None
  end.

(** ** The vocabulary of the specification on trees and stores *)




(** The same option set but for the parser identifier. *)
Definition same_but_parser (a b : Options) : Prop :=
  forall key : string, key <> "parser" -> a !! key = b !! key.

(** Two stores with the same objects but for their parser identifiers. *)
Definition same_but_parsers (h h' : Store) : Prop :=
  length h = length h' /\ forall l : loc, same_but_parser (h !!! l) (h' !!! l).

(** A test that leaves the store alone or assigns the parser of one object. *)
Definition parser_only (t : Test) : Prop :=
  forall h : Store,
    fst (run_test t h) = h
    \/ exists (l : loc) v, fst (run_test t h) = <[l := <["parser" := v]> (h !!! l)]> h.

(** The store after the given tests have run, one after the other. *)
Fixpoint run_tests (ts : list Test) (h : Store) : Store :=
  match ts with
  | [] => h
  | t :: rest => run_tests rest (fst (run_test t h))
  end.

(** ** The host *)

(** What [spawnSync] reports: the exit status ([null] when the process could
    not be spawned) and the decoded standard output. *)
Record SpawnResult : Type := mkSpawn { status : option Z; stdout : string }.

(** Everything the driver calls that is not in the file.  [semver.satisfies]
    and [fs.lstatSync(path).isFile()] return or throw, as the calls into the
    file system and the formatter do. *)
Class Host : Type := mkHost {
  (** Processes, [semver], the file system and [path]. *)
  spawnSync : string -> list string -> SpawnResult;
  semver_satisfies : string -> string -> Res JsError bool;
  readdirSync : string -> Res JsError (list string);
  lstat_isFile : string -> Res JsError bool;
  readFileSync : string -> Res JsError string;
  extname : string -> string;
  (** The formatter. *)
  prettier_format : string -> Options -> Res JsError string;
  prettier_debug_parse : string -> Options -> Res JsError JsVal;
  normalizeOptions : Options -> Res JsError Options;
  massageAST : JsVal -> Options -> Res JsError JsVal;
  (** [process.env.AST_COMPARE]. *)
  AST_COMPARE : option string;
  (** The engine and Jest: stack capture, the snapshot store, deep equality. *)
  capture_stack : string -> string;
  snapshot_matches : RawMarker -> string -> bool;
  jest_equals : JsVal -> JsVal -> bool;
  (** [semver.satisfies] throws on a version it cannot parse and on nothing
      else: a version that satisfied one range is thrown on for no range. *)
  semver_valid_version : forall version range range',
    semver_satisfies version range = Ok true ->
    exists inside, semver_satisfies version range' = Ok inside
}.

(** ** The driver *)

Section Driver.

Context {host : Host}.

Definition new_Error (msg : string) : JsError := mkJsError msg (capture_stack msg).

(** [v[key]] for the keys the driver reads (["errors"], ["length"]): a
    [TypeError] on [undefined] and [null], the own property of an object,
    the length of an array or a string, [undefined] otherwise.  The driver
    only compares a length with zero; of a string it is the number of
    bytes here. *)
Definition js_get (v : JsVal) (key : string) : Res JsError JsVal :=
  match v with
  | JUndefined | JNull =>
      Throw (new_Error ("Cannot read property '" +:+ key +:+ "' of undefined or null"))
  | JObj props => Ok (default JUndefined (obj_get props key))
  | JArr elems =>
      Ok (if String.eqb key "length" then JNum (Z.of_nat (length elems)) else JUndefined)
  | JStr s =>
      Ok (if String.eqb key "length" then JNum (Z.of_nat (String.length s)) else JUndefined)
  | JBool _ | JNum _ => Ok JUndefined
  end.

(** [v === 0]. *)
Definition is_zero (v : JsVal) : bool :=
  match v with
  | JNum n => (n =? 0)%Z
  | _ => false
  end.

(** Whether a matcher accepts. *)
Definition holds (e : Expectation) : bool :=
  match e with
  | ToBeGreaterThan actual expected => Nat.ltb expected actual
  | ToEqualNumber actual expected => Nat.eqb actual expected
  | ToMatchSnapshot actual hint => snapshot_matches actual hint
  | ToEqualString actual expected => String.eqb actual expected
  | ToBeNull actual => match actual with JNull => true | _ => false end
  | ToBeDefined actual => match actual with JUndefined => false | _ => true end
  | ToEqual actual expected => jest_equals actual expected
  end.

(** [expect(...)...]: returns when the matcher accepts, throws otherwise. *)
Definition expect (e : Expectation) : TestM unit :=
  fun h => (h, if holds e then Ok tt else Throw (AssertionFailed e)).

(** *** Interpreter resolution *)

Definition probe_args : list string :=
  ["-c"; "import platform; print(platform.python_version())"].

(** The loop over the candidates; [version !== null] holds of every string
    and is left out of the last condition.  The call of [semver.satisfies]
    is not guarded: what it throws ends the loop and the function. *)
Fixpoint getPythonBinAndVersion (potentialBins : list string) (versionSpec : string)
  : Res JsError (option (string * string)) :=
  match potentialBins with
  | [] => Ok None
  | bin :: rest =>
      let proc := spawnSync bin probe_args in
      if negb (bool_decide (status proc = Some 0%Z)) then
        getPythonBinAndVersion rest versionSpec
      else
        let version := Str.trim (stdout proc) in
        res_bind (semver_satisfies version versionSpec) (fun satisfied =>
          if satisfied then Ok (Some (bin, version))
          else getPythonBinAndVersion rest versionSpec)
  end.

(** The top level of the file resolves the two tracks when the file is
    loaded; the functions below it exist once both resolutions have
    returned.  A loaded file is its two bindings. *)
Class Loaded : Type := mkLoaded {
  python2BinAndVersion : option (string * string);
  python3BinAndVersion : option (string * string);
  python2_resolved :
    getPythonBinAndVersion ["python2.7"; "python2"; "python"] "2.*"
    = Ok python2BinAndVersion;
  python3_resolved :
    getPythonBinAndVersion ["python3.6"; "python3"; "python"] "3.*"
    = Ok python3BinAndVersion
}.

Context {loaded : Loaded}.

(** The callback of the [forEach] over the two bindings; the array
    [pythonBinaries] is threaded through. *)
Definition pushSatisfying (versionSpec : string)
    (pythonBinaries : list string) (binAndVersion : option (string * string))
  : Res JsError (list string) :=
  match binAndVersion with
  | Some (bin, version) =>
      res_map (fun satisfied : bool =>
                 if satisfied then pythonBinaries ++ [bin] else pythonBinaries)
              (semver_satisfies version versionSpec)
  | None => Ok pythonBinaries
  end.

Definition getPythonBinaries (versionSpec : string) : M (list string) :=
  (do pythonBinaries <-
     call (res_fold (pushSatisfying versionSpec)
                    [python2BinAndVersion; python3BinAndVersion] []);
   test "At least one valid Python version"
        (expect (ToBeGreaterThan (length pythonBinaries) 0)) ;;
   (if String.eqb versionSpec "*" then
      test "Both Python versions available"
           (expect (ToEqualNumber (length pythonBinaries) 2))
    else ret tt) ;;
   ret pythonBinaries)%run.

(** *** Formatting and parsing *)

Definition prettyprint (src filename : string) (options : Options)
  : Res JsError string :=
  prettier_format src (object_assign {[ "filepath" := JStr filename ]} options).

Definition parse (s : string) (opts : Options) : Res JsError JsVal :=
  res_map stripExtraNonComparableKeys (prettier_debug_parse s opts).

Definition read (filename : string) : M string :=
  (log_fs (ReadFile filename) ;; call (readFileSync filename))%run.

(** *** The tests of one fixture under one interpreter *)

(** The body of the snapshot test. *)
Definition snapshot_fn (filename source output : string) : TestM unit :=
  expect (ToMatchSnapshot
            (raw (source +:+ Str.repeat "~" 80 +:+ String Str.LF EmptyString +:+ output))
            filename).

(** The body of the test of an alternate parser.  [mergedOptions] is the
    object of the enclosing callback, captured by reference. *)
Definition verify_fn (source path output : string)
    (mergedOptions : loc) (parserName : string) : TestM unit :=
  (do verifyOptions <- t_assign mergedOptions {[ "parser" := JStr parserName ]};
   do derived <- t_deref verifyOptions;
   do verifyOutput <- t_call (prettyprint source path derived);
   expect (ToEqualString output verifyOutput))%test.

(** [!ast.errors || ast.errors.length === 0]. *)
Definition no_errors (ast : JsVal) : Res JsError bool :=
  res_bind (js_get ast "errors") (fun errors =>
    if negb (truthy errors) then Ok true
    else res_map is_zero (js_get errors "length")).

(** The body of the round-trip test. *)
Definition parse_fn (pperr ppastMassaged ast astMassaged : JsVal) : TestM unit :=
  (expect (ToBeNull pperr) ;;
   expect (ToBeDefined ppastMassaged) ;;
   do clean <- t_call (no_errors ast);
   if clean then expect (ToEqual astMassaged ppastMassaged)
   else t_ret tt)%test.

(** The [try] block: the massaged tree of the formatted text and [null],
    or [undefined] and the stack of what was thrown. *)
Definition reparse (source path : string) (merged normalizedOptions : Options)
  : JsVal * JsVal :=
  match res_bind (prettyprint source path merged) (fun formatted =>
        res_bind (parse formatted merged) (fun ppast =>
        massageAST ppast normalizedOptions)) with
  | Ok ppastMassaged => (ppastMassaged, JNull)
  | Throw e => (JUndefined, JStr (stack e))
  end.

Definition ast_compare (source path : string) (mergedOptions : loc) : M unit :=
  (do merged <- deref mergedOptions;
   do ast <- call (parse source merged);
   do normalizedOptions <- call (normalizeOptions merged);
   do astMassaged <- call (massageAST ast normalizedOptions);
   let '(ppastMassaged, pperr) := reparse source path merged normalizedOptions in
   test (path +:+ " parse") (parse_fn pperr ppastMassaged ast astMassaged))%run.

(** [Object.assign({}, options, { parser: parsers[0], pythonBin })]. *)
Definition merged_options (options : Options) (parser0 pythonBin : string) : Options :=
  object_assign (object_assign ∅ options)
                {[ "parser" := JStr parser0; "pythonBin" := JStr pythonBin ]}.

(** The callback of [getPythonBinaries(versionRange).forEach].  [parser0]
    is [parsers[0]] and [alternates] is [parsers.slice(1)];
    [mergedOptions.parser] in the name of the snapshot test is [parser0],
    assigned two statements earlier. *)
Definition for_pythonBin (options : Options) (parser0 : string)
    (alternates : list string) (filename path source : string)
    (pythonBin : string) : M unit :=
  (do mergedOptions <- new_object (merged_options options parser0 pythonBin);
   do merged <- deref mergedOptions;
   do output <- call (prettyprint source path merged);
   test (filename +:+ " - " +:+ parser0 +:+ "-verify")
        (snapshot_fn filename source output) ;;
   forEach alternates (fun parserName =>
     test (filename +:+ " - " +:+ parserName +:+ "-verify")
          (verify_fn source path output mergedOptions parserName)) ;;
   if env_truthy AST_COMPARE
   then ast_compare source path mergedOptions
   else ret tt)%run.

(** The condition under which a directory entry is a fixture.  [&&] stops
    at the first operand that is false: an entry with the extension [.snap]
    is not looked up in the file system; any other is, and that call
    returns or throws. *)
Definition is_fixture (dirname filename : string) : Res JsError bool :=
  if negb (String.eqb (extname filename) ".snap") then
    res_map (fun isFile : bool =>
               isFile
               && negb (bool_decide (first_char filename = Some "."%char))
               && negb (String.eqb filename "jsfmt.spec.js"))
            (lstat_isFile (dirname +:+ "/" +:+ filename))
  else Ok false.

(** The callback of [fs.readdirSync(dirname).forEach]: its guarded block
    first, then the callback itself. *)
Definition for_fixture (options : Options) (parser0 : string)
    (alternates : list string) (dirname versionRange : string)
    (filename : string) : M unit :=
  (let path := dirname +:+ "/" +:+ filename in
   do content <- read path;
   let source := Str.replace_crlf content in
   do pythonBinaries <- getPythonBinaries versionRange;
   forEach pythonBinaries
           (for_pythonBin options parser0 alternates filename path source))%run.

Definition for_filename (options : Options) (parser0 : string)
    (alternates : list string) (dirname versionRange : string)
    (filename : string) : M unit :=
  (do fixture <- call (is_fixture dirname filename);
   if fixture
   then for_fixture options parser0 alternates dirname versionRange filename
   else ret tt)%run.

Definition run_spec (dirname : string) (parsers : option (list string))
    (versionRange : string) (options : option Options) : M unit :=
  (let options := object_assign_opt {[ "plugins" := JArr [JStr "."] ]} options in
   match parsers with
   | None | Some [] => throw (new_Error ("No parsers were specified for " +:+ dirname))
   | Some (parser0 :: alternates) =>
       log_fs (ReadDir dirname) ;;
       do entries <- call (readdirSync dirname);
       forEach entries (for_filename options parser0 alternates dirname versionRange)
   end)%run.

(** *** The vocabulary of the specification *)

(** The version a candidate reports: its trimmed standard output. *)
Definition reported_version (bin : string) : string :=
  Str.trim (stdout (spawnSync bin probe_args)).

(** A candidate qualifies when its probe exits with status zero and the
    version it reports satisfies the constraint; the version of a candidate
    whose probe failed is not looked at. *)
Definition qualifies (versionSpec bin : string) : Res JsError bool :=
  if bool_decide (status (spawnSync bin probe_args) = Some 0%Z)
  then semver_satisfies (reported_version bin) versionSpec
  else Ok false.

(** A candidate the loop passes over: its probe did not exit with status
    zero, or the version it reports does not satisfy the constraint. *)
Definition passed_over (versionSpec bin : string) : Prop :=
  status (spawnSync bin probe_args) <> Some 0%Z
  \/ semver_satisfies (reported_version bin) versionSpec = Ok false.

(** [semver.satisfies(version, range)] returned [true]. *)
Definition in_range (version range : string) : bool :=
  returned_true (semver_satisfies version range).

(** The bindings of the tracks that resolved, first track first. *)
Definition resolved_tracks : list (string * string) :=
  omap id [python2BinAndVersion; python3BinAndVersion].

(** The interpreter set as the specification words it: the executables of
    the resolved bindings whose version satisfies the range, in track
    order, without duplicates. *)
Definition buildSet_spec (versionRange : string) : list string :=
  remove_dups
    (List.map fst
       (List.filter (fun bv => in_range (snd bv) versionRange) resolved_tracks)).

(** The array the interpreter set builder returns: what the loop over the
    two bindings leaves in [pythonBinaries].  The loop does not throw
    ([semver] has parsed the versions of the bindings before); the second
    case is never taken. *)
Definition selected_interpreters (versionSpec : string) : list string :=
  match res_fold (pushSatisfying versionSpec)
                 [python2BinAndVersion; python3BinAndVersion] [] with
  | Ok pythonBinaries => pythonBinaries
  | Throw _ => []
  end.

(** The two tests of the interpreter set builder. *)
Definition atLeastOne_test (pythonBinaries : list string) : Test :=
  mkTest "At least one valid Python version"
         (expect (ToBeGreaterThan (length pythonBinaries) 0)).

Definition both_test (pythonBinaries : list string) : Test :=
  mkTest "Both Python versions available"
         (expect (ToEqualNumber (length pythonBinaries) 2)).

(** The snapshot test and the tests of the alternate parsers that the
    callback registers for its fixture and its interpreter. *)
Definition tests_of_pair (filename path source output : string) (parser0 : string)
    (alternates : list string) (mergedOptions : loc) : list Test :=
  mkTest (filename +:+ " - " +:+ parser0 +:+ "-verify")
         (snapshot_fn filename source output)
  :: List.map (fun parserName =>
                 mkTest (filename +:+ " - " +:+ parserName +:+ "-verify")
                        (verify_fn source path output mergedOptions parserName))
              alternates.

(** The option set [run_spec] works with: the caller's over the default. *)
Definition with_defaults (options : option Options) : Options :=
  object_assign_opt {[ "plugins" := JArr [JStr "."] ]} options.

(** A test that makes the given assertions in order stops at the first
    one that is not met. *)
Fixpoint check_all (es : list Expectation) : Res Failure unit :=
  match es with
  | [] => Ok tt
  | e :: rest => if holds e then check_all rest else Throw (AssertionFailed e)
  end.

(** The fixtures of a directory listing, as the specification words the
    exclusion policy. *)
Definition eligible (dirname filename : string) : Prop :=
  lstat_isFile (dirname +:+ "/" +:+ filename) = Ok true
  /\ extname filename <> ".snap"
  /\ first_char filename <> Some "."%char
  /\ filename <> "jsfmt.spec.js".

(** The condition of the callback returned [true]. *)
Definition fixture (dirname filename : string) : bool :=
  returned_true (is_fixture dirname filename).

(** The entries the loop over a listing gets to: all of them, or those in
    front of the first one on which the condition throws, and what it
    throws. *)
Fixpoint visited (dirname : string) (entries : list string)
  : list string * option JsError :=
  match entries with
  | [] => ([], None)
  | filename :: rest =>
      match is_fixture dirname filename with
      | Ok _ => (filename :: fst (visited dirname rest), snd (visited dirname rest))
      | Throw e => ([], Some e)
      end
  end.

(** Everything the callback of one interpreter calls outside a test body
    returns: the reference format and, with the flag set, the parse of the
    source, the normalization of the options and the massage of the tree. *)
Definition pair_succeeds (options : Options) (parser0 : string)
    (path source pythonBin : string) : Prop :=
  let merged := merged_options options parser0 pythonBin in
  (exists output, prettyprint source path merged = Ok output)
  /\ (env_truthy AST_COMPARE = true ->
      exists ast normalizedOptions astMassaged,
        parse source merged = Ok ast
        /\ normalizeOptions merged = Ok normalizedOptions
        /\ massageAST ast normalizedOptions = Ok astMassaged).

(** The number of tests one interpreter adds for one fixture. *)
Definition tests_per_pair (alternates : list string) : nat :=
  1 + length alternates + (if env_truthy AST_COMPARE then 1 else 0).

(** The number of tests the interpreter set builder adds on one call. *)
Definition tests_per_builder (versionRange : string) : nat :=
  1 + (if String.eqb versionRange "*" then 1 else 0).

End Driver.

(** ** A sample host

    One concrete host, on which the driver can be run: a machine with
    [python2] and [python3] (and a [python] that is Python 2), a fixture
    directory, and a formatter that strips trailing blanks. *)

Module Sample.

(** Up to the first ".", the major version. *)
Fixpoint major (v : string) : string :=
  match v with
  | EmptyString => EmptyString
  | String c rest => if Ascii.eqb c "."%char then EmptyString else String c (major rest)
  end.

(** After the first ".", if there is one. *)
Fixpoint after_dot (v : string) : option string :=
  match v with
  | EmptyString => None
  | String c rest => if Ascii.eqb c "."%char then Some rest else after_dot rest
  end.

Fixpoint digits (s : string) : bool :=
  match s with
  | EmptyString => true
  | String c rest =>
      Nat.leb 48 (nat_of_ascii c) && Nat.leb (nat_of_ascii c) 57 && digits rest
  end.

Definition numeric (s : string) : bool := negb (String.eqb s EmptyString) && digits s.

(** The versions [semver] parses, here: three numbers with "." between. *)
Definition valid (version : string) : bool :=
  match after_dot version with
  | Some minor_patch =>
      match after_dot minor_patch with
      | Some patch => numeric (major version) && numeric (major minor_patch) && numeric patch
      | None => false
      end
  | None => false
  end.

(** The ranges in use: ["*"] and ["N.*"]. *)
Definition known_range (range : string) : bool :=
  String.eqb range "*"
  || (numeric (major range) && String.eqb range (major range +:+ ".*")).

Definition invalid_version (version : string) : JsError :=
  mkJsError ("Invalid Version: " +:+ version) "TypeError: Invalid Version".

(** [semver.satisfies] as version 5 of the package has it: [false] for a
    range it cannot parse and for the empty version, a [TypeError] for any
    other version it cannot parse. *)
Definition satisfies (version range : string) : Res JsError bool :=
  if negb (known_range range) || String.eqb version EmptyString then Ok false
  else if valid version then
    Ok (String.eqb range "*" || String.eqb range (major version +:+ ".*"))
  else Throw (invalid_version version).

Definition satisfies_valid_version (version range range' : string) :
  satisfies version range = Ok true ->
  exists inside, satisfies version range' = Ok inside.
Proof.
  unfold satisfies. destruct (String.eqb version EmptyString).
  - rewrite orb_true_r. discriminate.
  - rewrite !orb_false_r. destruct (negb (known_range range)); [discriminate|].
    destruct (valid version); [|discriminate]. intros _.
    destruct (negb (known_range range')); eexists; reflexivity.
Qed.

Definition LF : string := String Str.LF EmptyString.

Definition spawnSync (bin : string) (args : list string) : SpawnResult :=
  if String.eqb bin "python2" then mkSpawn (Some 0%Z) ("2.7.15" +:+ LF)
  else if String.eqb bin "python3" then mkSpawn (Some 0%Z) ("3.6.5" +:+ LF)
  else if String.eqb bin "python" then mkSpawn (Some 0%Z) ("2.7.15" +:+ LF)
  else if String.eqb bin "python3.6" then mkSpawn (Some 1%Z) EmptyString
  else mkSpawn None EmptyString.

(** A host whose [python2.7] is a distribution build: the version it
    reports ends in "+". *)
Definition spawnSync_distribution (bin : string) (args : list string) : SpawnResult :=
  if String.eqb bin "python2.7" then mkSpawn (Some 0%Z) ("2.7.15+" +:+ LF)
  else spawnSync bin args.

(** A host where [python] reports one version line, to any probe. *)
Definition one_python (version : string) (bin : string) (args : list string)
  : SpawnResult :=
  if String.eqb bin "python" then mkSpawn (Some 0%Z) version else mkSpawn None EmptyString.

Definition enoent (path : string) : JsError :=
  mkJsError ("ENOENT: no such file or directory, " +:+ path) "Error: ENOENT".

Definition readdirSync (dirname : string) : Res JsError (list string) :=
  if String.eqb dirname "tests/sample"
  then Ok ["a.py"; ".hidden"; "results.snap"; "jsfmt.spec.js"; "sub"; "b.py"]
  else Throw (enoent dirname).

Definition lstat_isFile (path : string) : Res JsError bool :=
  if String.eqb path "tests/sample/sub" then Ok false
  else if existsb (fun name => String.eqb path ("tests/sample/" +:+ name))
                  ["a.py"; ".hidden"; "results.snap"; "jsfmt.spec.js"; "b.py"]
  then Ok true
  else Throw (enoent path).

Definition readFileSync (path : string) : Res JsError string :=
  if String.eqb path "tests/sample/a.py" then Ok ("x = 1" +:+ Str.CRLF)
  else if String.eqb path "tests/sample/b.py" then Ok ("y = (" +:+ LF)
  else Throw (enoent path).

(** The extension of a name without separators, after [path.extname]:
    from the last "." on, unless that is the first character or the name
    is "..". *)
Fixpoint from_last_dot (s : string) : option string :=
  match s with
  | EmptyString => None
  | String c rest =>
      match from_last_dot rest with
      | Some ext => Some ext
      | None => if Ascii.eqb c "."%char then Some s else None
      end
  end.

Definition extname (name : string) : string :=
  match name with
  | EmptyString => EmptyString
  | String _ rest =>
      if String.eqb name ".." then EmptyString
      else default EmptyString (from_last_dot rest)
  end.

Definition prettier_format (src : string) (options : Options) : Res JsError string :=
  match options !! "parser" with
  | Some (JStr _) => Ok (Str.trimEnd src +:+ LF)
  | _ => Throw (mkJsError "No parser given" "Error: No parser given")
  end.

Definition prettier_debug_parse (src : string) (options : Options)
  : Res JsError JsVal :=
  Ok (JObj [("ast_type", JStr "Module"); ("text", JStr src);
            ("body", JArr [JObj [("ast_type", JStr "Expr"); ("value", JNull)]])]).

Definition normalizeOptions (options : Options) : Res JsError Options := Ok options.

Definition massageAST (ast : JsVal) (options : Options) : Res JsError JsVal := Ok ast.

Definition AST_COMPARE : option string := Some "1".

Definition capture_stack (msg : string) : string := "Error: " +:+ msg.

Definition snapshot_matches (actual : RawMarker) (hint : string) : bool := true.

(** Jest's [toEqual] on these values: recursive equality that ignores the
    order of the properties and the properties that are [undefined]. *)
Fixpoint jest_equals (a b : JsVal) : bool :=
  match a, b with
  | JUndefined, JUndefined | JNull, JNull => true
  | JBool x, JBool y => Bool.eqb x y
  | JNum x, JNum y => (x =? y)%Z
  | JStr x, JStr y => String.eqb x y
  | JArr xs, JArr ys =>
      (fix all2 (xs ys : list JsVal) : bool :=
         match xs, ys with
         | [], [] => true
         | x :: xs', y :: ys' => jest_equals x y && all2 xs' ys'
         | _, _ => false
         end) xs ys
  | JObj ps, JObj qs =>
      (fix covered (ps : list (string * JsVal)) : bool :=
         match ps with
         | [] => true
         | (k, x) :: ps' =>
             jest_equals x (default JUndefined (obj_get qs k)) && covered ps'
         end) ps
      && forallb (fun kq => match snd kq with
                            | JUndefined => true
                            | _ => bool_decide (is_Some (obj_get ps (fst kq)))
                            end) qs
  | _, _ => false
  end.

Definition host : Host :=
  mkHost spawnSync satisfies readdirSync lstat_isFile readFileSync extname
         prettier_format prettier_debug_parse normalizeOptions massageAST
         AST_COMPARE capture_stack snapshot_matches jest_equals
         satisfies_valid_version.

(** On this host the file loads: the first track is [python2], the second
    [python3]. *)
Definition loaded : @Loaded host :=
  @mkLoaded host (Some ("python2", "2.7.15")) (Some ("python3", "3.6.5"))
            eq_refl eq_refl.

(** A host with nothing but a [python] that reports the given line. *)
Definition host_with_python (version : string) : Host :=
  mkHost (one_python version) satisfies readdirSync lstat_isFile readFileSync
         extname prettier_format prettier_debug_parse normalizeOptions
         massageAST AST_COMPARE capture_stack snapshot_matches jest_equals
         satisfies_valid_version.

Definition loaded_with_python2 : @Loaded (host_with_python "2.7.15") :=
  @mkLoaded (host_with_python "2.7.15") (Some ("python", "2.7.15")) None
            eq_refl eq_refl.

(** The sample host but for its [python2.7], the distribution build. *)
Definition host_distribution : Host :=
  mkHost spawnSync_distribution satisfies readdirSync lstat_isFile readFileSync
         extname prettier_format prettier_debug_parse normalizeOptions
         massageAST AST_COMPARE capture_stack snapshot_matches jest_equals
         satisfies_valid_version.

(** A host whose formatter spoils the text and whose parser refuses what
    the formatter made of it. *)
Definition format_spoiling (src : string) (options : Options) : Res JsError string :=
  Ok ("<<" +:+ src).

Definition parse_refusing (src : string) (options : Options) : Res JsError JsVal :=
  if Str.starts_with "<<" src
  then Throw (mkJsError "invalid syntax" "SyntaxError: invalid syntax (1:1)")
  else prettier_debug_parse src options.

Definition host_spoiling : Host :=
  mkHost spawnSync satisfies readdirSync lstat_isFile readFileSync extname
         format_spoiling parse_refusing normalizeOptions massageAST
         AST_COMPARE capture_stack snapshot_matches jest_equals
         satisfies_valid_version.

Definition loaded_spoiling : @Loaded host_spoiling :=
  @mkLoaded host_spoiling (Some ("python2", "2.7.15")) (Some ("python3", "3.6.5"))
            eq_refl eq_refl.

(** A host whose formatter spoils the text and whose parser takes any text
    and reports [null] for its error list. *)
Definition parse_null_errors (src : string) (options : Options) : Res JsError JsVal :=
  Ok (JObj [("ast_type", JStr "Module"); ("errors", JNull); ("source", JStr src)]).

Definition host_null_errors : Host :=
  mkHost spawnSync satisfies readdirSync lstat_isFile readFileSync extname
         format_spoiling parse_null_errors normalizeOptions massageAST
         AST_COMPARE capture_stack snapshot_matches jest_equals
         satisfies_valid_version.

Definition loaded_null_errors : @Loaded host_null_errors :=
  @mkLoaded host_null_errors (Some ("python2", "2.7.15")) (Some ("python3", "3.6.5"))
            eq_refl eq_refl.

Definition start : State := mkState [] [] [].


(** The run of the sample directory with two parsers, from nothing. *)
Definition run : State * Res JsError unit :=
  @run_spec host loaded "tests/sample" (Some ["python"; "python_alt"]) "*" None start.

(** The run of the sample directory on the host whose parser reports
    [null] for its error list, with one parser, under Python 3. *)
Definition run_null_errors : State * Res JsError unit :=
  @run_spec host_null_errors loaded_null_errors "tests/sample" (Some ["python"]) "3.*"
            None start.

End Sample.

(** * Properties *)

(** ** The extra normalization step *)

Section Strip.

Lemma JsVal_nested_ind (P : JsVal -> Prop) :
  P JUndefined -> P JNull -> (forall b, P (JBool b)) -> (forall n, P (JNum n)) ->
  (forall s, P (JStr s)) ->
  (forall elems, Forall P elems -> P (JArr elems)) ->
  (forall props, Forall (fun kv => P (snd kv)) props -> P (JObj props)) ->
  forall v, P v.
Proof.
  intros Hu Hn Hb Hz Hs Ha Ho.
  fix IH 1. intros [| | b | n | s | elems | props];
    [exact Hu | exact Hn | apply Hb | apply Hz | apply Hs | |].
  - apply Ha. induction elems as [|e elems IHe]; constructor; [apply IH | apply IHe].
  - apply Ho. induction props as [|[k w] props IHp]; constructor; [apply IH | apply IHp].
Qed.

Lemma strip_obj props :
  stripExtraNonComparableKeys (JObj props) = JObj (for_in props []).
Proof. reflexivity. Qed.

Lemma obj_set_fresh acc k v :
  k ∉ List.map fst acc -> obj_set acc k v = acc ++ [(k, v)].
Proof.
  induction acc as [|[k' w] acc IH]; simpl; intros Hk; [done|].
  rewrite not_elem_of_cons in Hk. destruct Hk as [Hne Hk].
  destruct (String.eqb_spec k' k); [congruence|]. by rewrite IH.
Qed.

Lemma for_in_distinct ps acc :
  NoDup (List.map fst ps) ->
  (forall k, k ∈ List.map fst ps -> k ∉ List.map fst acc) ->
  for_in ps acc = acc ++ strip_props ps.
Proof.
  revert acc. induction ps as [|[k w] ps IH]; intros acc Hnd Hdis; simpl.
  - by rewrite app_nil_r.
  - simpl in Hnd. apply NoDup_cons in Hnd as [Hk Hnd].
    unfold strip_props. simpl.
    destruct (String.eqb k "text") eqn:Hkt; simpl.
    + apply IH; [done|]. intros k' Hk'. apply Hdis. simpl. by right.
    + rewrite IH; [|done|].
      * rewrite obj_set_fresh; [by rewrite <- app_assoc|].
        apply Hdis. simpl. by left.
      * intros k' Hk'. rewrite obj_set_fresh by (apply Hdis; simpl; by left).
        rewrite List.map_app, elem_of_app. simpl. intros [Hin | Hin].
        -- revert Hin. apply Hdis. simpl. by right.
        -- apply list_elem_of_singleton in Hin as ->. done.
Qed.

Lemma strip_object_distinct props :
  NoDup (List.map fst props) ->
  stripExtraNonComparableKeys (JObj props) = JObj (strip_props props).
Proof.
  intros Hnd. rewrite strip_obj, for_in_distinct; [done..|].
  intros k _. simpl. apply not_elem_of_nil.
Qed.

Lemma strip_no_text v : has_text_key (stripExtraNonComparableKeys v) = false.
Proof.
  induction v as [| | b | n | s | elems IH | props IH] using JsVal_nested_ind; try reflexivity.
  - simpl. induction IH as [|e elems He _ IHe]; simpl; [done|]. by rewrite He, IHe.
  - rewrite strip_obj. simpl.
    assert (Hgen : forall acc,
      Forall (fun kv => (String.eqb (fst kv) "text" || has_text_key (snd kv)) = false) acc ->
      Forall (fun kv => (String.eqb (fst kv) "text" || has_text_key (snd kv)) = false)
             (for_in props acc)).
    { induction IH as [|[k w] props Hw _ IHp]; intros acc Hacc; simpl; [done|].
      destruct (String.eqb k "text") eqn:Hk; [by apply IHp|].
      apply IHp. clear IHp. simpl in Hw.
      induction Hacc as [|[k0 w0] acc H0 Hacc IHacc]; simpl.
      - constructor; [|constructor]. simpl. by rewrite Hk, Hw.
      - destruct (String.eqb_spec k0 k) as [->|Hne]; constructor; simpl; auto.
        by rewrite Hk, Hw. }
    specialize (Hgen [] (Forall_nil_2 _)).
    induction Hgen as [|kv l Hkv _ IHl]; simpl; [done|]. by rewrite Hkv, IHl.
Qed.

Lemma strip_array elems :
  stripExtraNonComparableKeys (JArr elems)
  = JArr (List.map stripExtraNonComparableKeys elems).
Proof. reflexivity. Qed.

(** Every scalar but [null] is returned as it is. *)
Lemma strip_scalar v :
  is_scalar v = true -> v <> JNull -> stripExtraNonComparableKeys v = v.
Proof. by destruct v. Qed.

(** C3 at [null]: a scalar, which [typeof] reports as ["object"], is not
    returned unchanged but rebuilt as an empty object, at the top and
    under any property. *)
Lemma C3_null_rebuilt_as_object :
  is_scalar JNull = true
  /\ typeof_object JNull = true
  /\ stripExtraNonComparableKeys JNull = JObj []
  /\ stripExtraNonComparableKeys JNull <> JNull
  /\ stripExtraNonComparableKeys
       (JObj [("ast_type", JStr "Return"); ("text", JStr "return"); ("value", JNull)])
     = JObj [("ast_type", JStr "Return"); ("value", JObj [])].
Proof. repeat split; done. Qed.

End Strip.

(** ** Line endings *)

Section LineEndings.
Import Str.

Lemma starts_with_spec p s :
  starts_with p s = true <-> exists post, s = p +:+ post.
Proof.
  revert s. induction p as [|a p IH]; intros s; simpl.
  - split; [intros _; by exists s | done].
  - destruct s as [|b s]; simpl.
    + split; [done | intros [post H]; discriminate].
    + rewrite andb_true_iff, IH. split.
      * intros [Hab [post ->]]. apply Ascii.eqb_eq in Hab as ->. by exists post.
      * intros [post H]. injection H as -> ->.
        split; [apply Ascii.eqb_refl | by exists post].
Qed.

Lemma contains_spec sub s : contains sub s = true <-> Contains s sub.
Proof.
  unfold Contains. induction s as [|c s IH]; simpl.
  - rewrite orb_false_r, starts_with_spec. split.
    + intros [post H]. by exists EmptyString, post.
    + intros [pre [post H]]. destruct pre; simpl in H; [by exists post | discriminate].
  - rewrite orb_true_iff, starts_with_spec, IH. split.
    + intros [[post H] | [pre [post H]]].
      * by exists EmptyString, post.
      * exists (String c pre), post. simpl. by rewrite H.
    + intros [pre [post H]]. destruct pre as [|d pre]; simpl in H.
      * left. by exists post.
      * right. injection H as -> ->. by exists pre, post.
Qed.

Lemma contains_cons sub c s :
  contains sub (String c s) = starts_with sub (String c s) || contains sub s.
Proof. reflexivity. Qed.

Lemma replace_crlf_cons2 c d s :
  replace_crlf (String c (String d s)) =
  if (Ascii.eqb c CR && Ascii.eqb d LF)%bool
  then String LF (replace_crlf s) else String c (replace_crlf (String d s)).
Proof. reflexivity. Qed.







End LineEndings.

(** ** The driver on any host *)

Section Properties.

Context {host : Host} {loaded : Loaded}.

(** ** Runs only add to the state *)

Lemma grows_refl s : grows s s.
Proof. repeat split; exists []; by rewrite app_nil_r. Qed.

Lemma grows_trans s1 s2 s3 : grows s1 s2 -> grows s2 s3 -> grows s1 s3.
Proof.
  intros ([h1 H1] & [t1 T1] & [e1 E1]) ([h2 H2] & [t2 T2] & [e2 E2]).
  repeat split; [exists (h1 ++ h2) | exists (t1 ++ t2) | exists (e1 ++ e2)];
    rewrite app_assoc; congruence.
Qed.

Lemma grows_tests s s' t : grows s s' -> t ∈ tests s -> t ∈ tests s'.
Proof. intros (_ & [ts ->] & _) Ht. apply elem_of_app. by left. Qed.

Lemma grows_store s s' (l : loc) o :
  grows s s' -> store s !! l = Some o -> store s' !! l = Some o.
Proof. intros ([hs ->] & _) Hl. by apply lookup_app_l_Some. Qed.

Lemma monotone_ret {A} (a : A) : monotone (ret a).
Proof. intros s. apply grows_refl. Qed.

Lemma monotone_throw {A} e : monotone (@throw A e).
Proof. intros s. apply grows_refl. Qed.

Lemma monotone_call {A} (r : Res JsError A) : monotone (call r).
Proof. intros s. apply grows_refl. Qed.

Lemma monotone_deref l : monotone (deref l).
Proof. intros s. apply grows_refl. Qed.

Lemma monotone_test name fn : monotone (test name fn).
Proof.
  intros s. split; [exists []; cbn; by rewrite app_nil_r|].
  split; [by eexists | exists []; cbn; by rewrite app_nil_r].
Qed.

Lemma monotone_new_object o : monotone (new_object o).
Proof.
  intros s. split; [by eexists|].
  split; exists []; cbn; by rewrite app_nil_r.
Qed.

Lemma monotone_log_fs e : monotone (log_fs e).
Proof.
  intros s. split; [exists []; cbn; by rewrite app_nil_r|].
  split; [exists []; cbn; by rewrite app_nil_r | by eexists].
Qed.

Lemma monotone_bind {A B} (m : M A) (k : A -> M B) :
  monotone m -> (forall a, monotone (k a)) -> monotone (bind m k).
Proof.
  intros Hm Hk s. unfold bind. specialize (Hm s).
  destruct (m s) as [s' [a|e]]; cbn in *; [|assumption].
  eapply grows_trans; [eassumption | apply Hk].
Qed.

Lemma monotone_forEach {A} (xs : list A) (f : A -> M unit) :
  (forall x, monotone (f x)) -> monotone (forEach xs f).
Proof.
  intros Hf. induction xs as [|x xs IH]; cbn [forEach].
  - apply monotone_ret.
  - apply monotone_bind; [apply Hf | intros _; apply IH].
Qed.

Lemma monotone_if {A} (b : bool) (m1 m2 : M A) :
  monotone m1 -> monotone m2 -> monotone (if b then m1 else m2).
Proof. by destruct b. Qed.

Ltac mono := repeat (intros; first
  [ apply monotone_bind | apply monotone_forEach | apply monotone_if
  | apply monotone_ret | apply monotone_throw | apply monotone_call
  | apply monotone_deref | apply monotone_test | apply monotone_new_object
  | apply monotone_log_fs ]).

Lemma monotone_getPythonBinaries versionSpec : monotone (getPythonBinaries versionSpec).
Proof. unfold getPythonBinaries. mono. Qed.

Lemma monotone_read filename : monotone (read filename).
Proof. unfold read. mono. Qed.

Lemma monotone_ast_compare source path l : monotone (ast_compare source path l).
Proof.
  unfold ast_compare. mono.
  destruct (reparse _ _ _ _). mono.
Qed.

Lemma monotone_for_pythonBin options parser0 alternates filename path source bin :
  monotone (for_pythonBin options parser0 alternates filename path source bin).
Proof.
  unfold for_pythonBin, ast_compare. mono.
  destruct (reparse _ _ _ _). mono.
Qed.

Lemma monotone_for_fixture options parser0 alternates dirname versionRange filename :
  monotone (for_fixture options parser0 alternates dirname versionRange filename).
Proof.
  unfold for_fixture. cbv zeta.
  apply monotone_bind; [apply monotone_read|]. intros content.
  apply monotone_bind; [apply monotone_getPythonBinaries|]. intros pythonBinaries.
  apply monotone_forEach. intros bin. apply monotone_for_pythonBin.
Qed.

Lemma monotone_for_filename options parser0 alternates dirname versionRange filename :
  monotone (for_filename options parser0 alternates dirname versionRange filename).
Proof.
  unfold for_filename. apply monotone_bind; [apply monotone_call|]. intros fixture.
  apply monotone_if; [apply monotone_for_fixture | apply monotone_ret].
Qed.

(** A loop that completes has run its callback on every element, from a
    state that extends the one the loop started in, into a state that the
    one the loop ended in extends. *)
Lemma forEach_Ok_elem {A} (f : A -> M unit) (xs : list A) (st st' : State) (x : A) :
  (forall y, monotone (f y)) ->
  forEach xs f st = (st', Ok tt) ->
  x ∈ xs ->
  exists s s', grows st s /\ f x s = (s', Ok tt) /\ grows s' st'.
Proof.
  intros Hf. revert st. induction xs as [|y xs IH]; intros st Hrun Hx.
  - by apply elem_of_nil in Hx.
  - cbn [forEach] in Hrun. unfold bind in Hrun.
    destruct (f y st) as [s1 [[]|e]] eqn:Hy; [|discriminate].
    pose proof (Hf y st) as Hg. rewrite Hy in Hg. cbn in Hg.
    apply elem_of_cons in Hx as [->|Hx].
    + exists st, s1. split; [apply grows_refl|]. split; [assumption|].
      pose proof (monotone_forEach xs f Hf s1) as Hg'. by rewrite Hrun in Hg'.
    + destruct (IH s1 Hrun Hx) as (s & s' & Hs & Hfx & Hs').
      exists s, s'. split; [by eapply grows_trans|]. by split.
Qed.

(** ** Interpreter resolution *)

Lemma getPythonBinAndVersion_cons bin rest versionSpec :
  getPythonBinAndVersion (bin :: rest) versionSpec =
  res_bind (qualifies versionSpec bin) (fun qualified =>
    if qualified then Ok (Some (bin, reported_version bin))
    else getPythonBinAndVersion rest versionSpec).
Proof.
  unfold qualifies, reported_version. cbn [getPythonBinAndVersion].
  destruct (bool_decide (status (spawnSync bin probe_args) = Some 0%Z)); cbn [negb];
    reflexivity.
Qed.

Lemma getPythonBinAndVersion_Some potentialBins versionSpec bin version :
  getPythonBinAndVersion potentialBins versionSpec = Ok (Some (bin, version)) ->
  exists skipped rest,
    potentialBins = skipped ++ bin :: rest
    /\ Forall (fun b => qualifies versionSpec b = Ok false) skipped
    /\ qualifies versionSpec bin = Ok true
    /\ version = reported_version bin.
Proof.
  induction potentialBins as [|b bins IH]; [discriminate|].
  rewrite getPythonBinAndVersion_cons.
  destruct (qualifies versionSpec b) as [[]|e] eqn:Hq; cbn [res_bind]; [| |discriminate].
  - intros [= <- <-]. exists [], bins. repeat split; [constructor | assumption].
  - intros H. destruct (IH H) as (skipped & rest & -> & Hsk & Hb & Hv).
    exists (b :: skipped), rest. repeat split; [by constructor | assumption..].
Qed.

Lemma getPythonBinAndVersion_None potentialBins versionSpec :
  getPythonBinAndVersion potentialBins versionSpec = Ok None ->
  Forall (fun b => qualifies versionSpec b = Ok false) potentialBins.
Proof.
  induction potentialBins as [|b bins IH]; [constructor|].
  rewrite getPythonBinAndVersion_cons.
  destruct (qualifies versionSpec b) as [[]|e] eqn:Hq; cbn [res_bind]; [discriminate| |discriminate].
  intros H. constructor; [assumption | by apply IH].
Qed.

Lemma getPythonBinAndVersion_Throw potentialBins versionSpec e :
  getPythonBinAndVersion potentialBins versionSpec = Throw e ->
  exists skipped bin rest,
    potentialBins = skipped ++ bin :: rest
    /\ Forall (fun b => qualifies versionSpec b = Ok false) skipped
    /\ qualifies versionSpec bin = Throw e.
Proof.
  induction potentialBins as [|b bins IH]; [discriminate|].
  rewrite getPythonBinAndVersion_cons.
  destruct (qualifies versionSpec b) as [[]|e'] eqn:Hq; cbn [res_bind]; [discriminate| |].
  - intros H. destruct (IH H) as (skipped & bin & rest & -> & Hsk & Hb).
    exists (b :: skipped), bin, rest. repeat split; [by constructor | assumption].
  - intros [= ->]. exists [], b, bins. repeat split; [constructor | assumption].
Qed.

Lemma qualifies_true versionSpec bin :
  qualifies versionSpec bin = Ok true <->
  status (spawnSync bin probe_args) = Some 0%Z
  /\ semver_satisfies (reported_version bin) versionSpec = Ok true.
Proof.
  unfold qualifies. case_bool_decide as Hst; [tauto|].
  split; [discriminate | tauto].
Qed.

Lemma qualifies_false versionSpec bin :
  qualifies versionSpec bin = Ok false <->
  status (spawnSync bin probe_args) <> Some 0%Z
  \/ semver_satisfies (reported_version bin) versionSpec = Ok false.
Proof.
  unfold qualifies. case_bool_decide as Hst; [|tauto].
  split; [by right | intros [?|?]; [contradiction | assumption]].
Qed.

Lemma qualifies_Throw versionSpec bin e :
  qualifies versionSpec bin = Throw e <->
  status (spawnSync bin probe_args) = Some 0%Z
  /\ semver_satisfies (reported_version bin) versionSpec = Throw e.
Proof.
  unfold qualifies. case_bool_decide as Hst; [tauto|].
  split; [discriminate | tauto].
Qed.

(** C4 at a version [semver] does not parse: a candidate that the loop
    reaches, whose probe exits with status zero and on whose version
    [semver.satisfies] throws, is not passed over.  Resolution throws what
    [semver] threw, whatever candidates follow: none of them is tried, and
    nothing is returned, neither a binding nor [null]. *)
Theorem C4_unparsable_version_is_fatal
    (skipped : list string) (bin : string) (rest : list string) (versionSpec : string)
    (e : JsError) :
  Forall (passed_over versionSpec) skipped ->
  status (spawnSync bin probe_args) = Some 0%Z ->
  semver_satisfies (reported_version bin) versionSpec = Throw e ->
  getPythonBinAndVersion (skipped ++ bin :: rest) versionSpec = Throw e.
Proof.
  intros Hskipped Hstatus Hthrow.
  induction Hskipped as [|b skipped Hb _ IH]; cbn [app];
    rewrite getPythonBinAndVersion_cons.
  - by rewrite (proj2 (qualifies_Throw versionSpec bin e) (conj Hstatus Hthrow)).
  - by rewrite (proj2 (qualifies_false versionSpec b) Hb).
Qed.

(** ** The interpreter set *)

Lemma in_range_true version range :
  in_range version range = true <-> semver_satisfies version range = Ok true.
Proof.
  unfold in_range, returned_true.
  destruct (semver_satisfies version range) as [[]|e]; split; congruence.
Qed.

Lemma getPythonBinAndVersion_elem potentialBins versionSpec bin version :
  getPythonBinAndVersion potentialBins versionSpec = Ok (Some (bin, version)) ->
  bin ∈ potentialBins
  /\ semver_satisfies (reported_version bin) versionSpec = Ok true
  /\ version = reported_version bin.
Proof.
  intros H. apply getPythonBinAndVersion_Some in H as (skipped & rest & -> & _ & Hq & ->).
  apply qualifies_true in Hq as [_ Hsat].
  split; [|by split]. rewrite elem_of_app, elem_of_cons. by right; left.
Qed.

(** The version of a resolved binding is one [semver] parses. *)
Lemma python2_version bin version :
  python2BinAndVersion = Some (bin, version) ->
  semver_satisfies version "2.*" = Ok true.
Proof.
  intros H. pose proof python2_resolved as Hres. rewrite H in Hres.
  by apply getPythonBinAndVersion_elem in Hres as (_ & Hsat & ->).
Qed.

Lemma python3_version bin version :
  python3BinAndVersion = Some (bin, version) ->
  semver_satisfies version "3.*" = Ok true.
Proof.
  intros H. pose proof python3_resolved as Hres. rewrite H in Hres.
  by apply getPythonBinAndVersion_elem in Hres as (_ & Hsat & ->).
Qed.

(** The one candidate the two tracks share is ["python"], and the version
    it reports is not inside both ["2.*"] and ["3.*"]: two tracks that
    resolve resolve to different executables. *)
Lemma tracks_resolve_apart bin2 version2 bin3 version3 :
  (semver_satisfies (reported_version "python") "2.*" = Ok true ->
   semver_satisfies (reported_version "python") "3.*" <> Ok true) ->
  python2BinAndVersion = Some (bin2, version2) ->
  python3BinAndVersion = Some (bin3, version3) ->
  bin2 <> bin3.
Proof.
  intros Hapart H2 H3 <-.
  pose proof python2_resolved as R2. rewrite H2 in R2.
  pose proof python3_resolved as R3. rewrite H3 in R3.
  apply getPythonBinAndVersion_elem in R2 as (Hin2 & Hsat2 & _).
  apply getPythonBinAndVersion_elem in R3 as (Hin3 & Hsat3 & _).
  assert (bin2 = "python") as ->.
  { repeat (apply elem_of_cons in Hin2 as [->|Hin2]);
      [| |reflexivity|by apply elem_of_nil in Hin2];
      repeat (apply elem_of_cons in Hin3 as [Heq|Hin3]; [discriminate Heq|]);
      by apply elem_of_nil in Hin3. }
  exact (Hapart Hsat2 Hsat3).
Qed.

(** The loop over the two bindings does not throw: the versions it hands
    to [semver] are versions [semver] has parsed before. *)
Lemma pushSatisfying_Ok versionSpec pythonBinaries bin version range :
  semver_satisfies version range = Ok true ->
  pushSatisfying versionSpec pythonBinaries (Some (bin, version))
  = Ok (if in_range version versionSpec then pythonBinaries ++ [bin] else pythonBinaries).
Proof.
  intros Hvalid. unfold pushSatisfying, in_range, returned_true, res_map, res_bind.
  destruct (semver_valid_version _ _ versionSpec Hvalid) as [inside ->]. reflexivity.
Qed.

Lemma collected_filter versionSpec :
  res_fold (pushSatisfying versionSpec)
           [python2BinAndVersion; python3BinAndVersion] []
  = Ok (List.map fst
          (List.filter (fun bv => in_range (snd bv) versionSpec) resolved_tracks)).
Proof.
  unfold resolved_tracks. cbn [res_fold].
  pose proof python2_version as V2. pose proof python3_version as V3.
  destruct python2BinAndVersion as [[bin2 version2]|],
           python3BinAndVersion as [[bin3 version3]|];
    cbn [omap list_omap id List.filter snd];
    repeat first
      [ erewrite pushSatisfying_Ok by (first [by eapply V2 | by eapply V3])
      | progress change (pushSatisfying versionSpec ?l None) with (@Ok JsError _ l)
      | progress cbn [res_bind] ];
    repeat match goal with
      | |- context [in_range ?v versionSpec] => destruct (in_range v versionSpec)
      end; reflexivity.
Qed.

Lemma selected_interpreters_filter versionSpec :
  selected_interpreters versionSpec =
  List.map fst
    (List.filter (fun bv => in_range (snd bv) versionSpec) resolved_tracks).
Proof. unfold selected_interpreters. by rewrite collected_filter. Qed.

Lemma collected_selected versionSpec :
  res_fold (pushSatisfying versionSpec)
           [python2BinAndVersion; python3BinAndVersion] []
  = Ok (selected_interpreters versionSpec).
Proof. by rewrite selected_interpreters_filter, collected_filter. Qed.

Lemma getPythonBinaries_returns versionSpec st :
  snd (getPythonBinaries versionSpec st) = Ok (selected_interpreters versionSpec).
Proof.
  unfold getPythonBinaries, bind at 1, call. rewrite collected_selected.
  unfold bind, test, ret. destruct (String.eqb versionSpec "*"); reflexivity.
Qed.

(** C5: the builder returns the executables of the resolved bindings whose
    version satisfies the range, first track first and without duplicates.
    The code has no step that removes duplicates; none can arise, since the
    two tracks share the one candidate ["python"] and the version it
    reports is not inside both of their ranges, ["2.*"] and ["3.*"]. *)
Theorem C5_interpreter_set (versionRange : string) (st : State) :
  (semver_satisfies (reported_version "python") "2.*" = Ok true ->
   semver_satisfies (reported_version "python") "3.*" <> Ok true) ->
  snd (getPythonBinaries versionRange st) = Ok (buildSet_spec versionRange).
Proof.
  intros Hapart. rewrite getPythonBinaries_returns. f_equal.
  unfold buildSet_spec. rewrite selected_interpreters_filter.
  pose proof (tracks_resolve_apart) as Hne.
  unfold resolved_tracks.
  destruct python2BinAndVersion as [[bin2 version2]|],
           python3BinAndVersion as [[bin3 version3]|];
    cbn [omap list_omap id List.filter snd];
    repeat match goal with
      | |- context [in_range ?v versionRange] => destruct (in_range v versionRange)
      end; try reflexivity.
  specialize (Hne bin2 version2 bin3 version3 Hapart eq_refl eq_refl).
  cbn [List.map fst remove_dups].
  destruct (decide_rel elem_of bin2 [bin3]) as [Hin|_]; [|reflexivity].
  apply list_elem_of_singleton in Hin. contradiction.
Qed.

Lemma getPythonBinaries_eq versionSpec st :
  getPythonBinaries versionSpec st =
  (mkState (store st)
           (tests st ++
              atLeastOne_test (selected_interpreters versionSpec)
              :: (if bool_decide (versionSpec = "*")
                  then [both_test (selected_interpreters versionSpec)] else []))
           (fs_log st),
   Ok (selected_interpreters versionSpec)).
Proof.
  unfold getPythonBinaries, bind at 1, call. rewrite collected_selected.
  unfold atLeastOne_test, both_test, bind, test, ret.
  destruct (String.eqb_spec versionSpec "*") as [->|Hne].
  - rewrite bool_decide_eq_true_2 by reflexivity. cbn [store tests fs_log].
    by rewrite <- app_assoc.
  - rewrite bool_decide_eq_false_2 by assumption. reflexivity.
Qed.

(** C6: every call registers the test that the set is not empty, and it
    registers the test that the set has two members exactly when the range
    is the string ["*"]; nothing else is registered, and the store and the
    file-system log are left alone. *)
Theorem C6_builder_assertions (versionSpec : string) (st : State) :
  exists pythonBinaries registered,
    getPythonBinaries versionSpec st =
      (mkState (store st) (tests st ++ registered) (fs_log st), Ok pythonBinaries)
    /\ registered =
         atLeastOne_test pythonBinaries
         :: (if bool_decide (versionSpec = "*") then [both_test pythonBinaries] else [])
    /\ (both_test pythonBinaries ∈ registered <-> versionSpec = "*")
    /\ (forall h, run_test (atLeastOne_test pythonBinaries) h =
                  (h, check_all [ToBeGreaterThan (length pythonBinaries) 0]))
    /\ (forall h, run_test (atLeastOne_test pythonBinaries) h = (h, Ok tt)
                  <-> 0 < length pythonBinaries)
    /\ (forall h, run_test (both_test pythonBinaries) h =
                  (h, check_all [ToEqualNumber (length pythonBinaries) 2]))
    /\ (forall h, run_test (both_test pythonBinaries) h = (h, Ok tt)
                  <-> length pythonBinaries = 2).
Proof.
  eexists _, _. split; [apply getPythonBinaries_eq|]. split; [reflexivity|].
  set (bins := selected_interpreters versionSpec).
  split; [|split; [|split; [|split]]].
  - case_bool_decide as Hv.
    + split; [done|]. intros _. apply elem_of_cons. right. apply list_elem_of_singleton.
      reflexivity.
    + split; [|done]. rewrite list_elem_of_singleton. intros [=].
  - intros h. unfold run_test, atLeastOne_test, expect. cbn [test_fn check_all].
    by destruct (holds _).
  - intros h. unfold run_test, atLeastOne_test, expect. cbn [test_fn holds].
    destruct (Nat.ltb_spec 0 (length bins)); split; intros H';
      first [done | lia | by inversion H'].
  - intros h. unfold run_test, both_test, expect. cbn [test_fn check_all].
    by destruct (holds _).
  - intros h. unfold run_test, both_test, expect. cbn [test_fn holds].
    destruct (Nat.eqb_spec (length bins) 2); split; intros H';
      first [done | by inversion H'].
Qed.

(** ** The guard on the parser list *)

Lemma append_empty_r (s : string) : s +:+ EmptyString = s.
Proof.
  induction s as [|c s IH]; [reflexivity|].
  change (String c s +:+ EmptyString) with (String c (s +:+ EmptyString)). by rewrite IH.
Qed.

(** C8: with an absent or an empty parser list [run_spec] throws at once an
    error whose message ends in the directory; the directory has not been
    read and no test has been registered: the state is the one it was
    called in. *)
Theorem C8_no_parsers (dirname versionRange : string) (options : option Options)
    (st : State) :
  let e := new_Error ("No parsers were specified for " +:+ dirname) in
  run_spec dirname None versionRange options st = (st, Throw e)
  /\ run_spec dirname (Some []) versionRange options st = (st, Throw e)
  /\ message e = "No parsers were specified for " +:+ dirname
  /\ Str.Contains (message e) dirname.
Proof.
  intros e. split; [reflexivity|]. split; [reflexivity|]. split; [reflexivity|].
  exists "No parsers were specified for ", EmptyString. cbn [message e new_Error].
  by rewrite append_empty_r.
Qed.

(** ** The tests of one fixture under one interpreter *)

(** What the test of an alternate parser does to the store and how it ends,
    when the object it shares with the enclosing callback is [current]. *)
Lemma verify_fn_run source path output (l : loc) parserName (h : Store) current :
  h !! l = Some current ->
  verify_fn source path output l parserName h =
  (<[l := <["parser" := JStr parserName]> current]> h,
   match prettyprint source path (<["parser" := JStr parserName]> current) with
   | Ok verifyOutput => check_all [ToEqualString output verifyOutput]
   | Throw e => Throw (Thrown e)
   end).
Proof.
  intros Hl. unfold verify_fn, t_bind, t_assign, t_deref, t_call, expect.
  rewrite (list_lookup_total_correct _ _ _ Hl).
  assert (object_assign current {[ "parser" := JStr parserName ]}
          = <["parser" := JStr parserName]> current) as ->.
  { unfold object_assign. by rewrite <- insert_union_singleton_l. }
  rewrite list_lookup_total_insert_eq by (by eapply lookup_lt_Some).
  destruct (prettyprint _ _ _) as [verifyOutput|e]; [|reflexivity].
  cbn [check_all]. by destruct (holds _).
Qed.



Lemma forEach_test {A} (name : A -> string) (fn : A -> TestM unit) xs st :
  forEach xs (fun x => test (name x) (fn x)) st =
  (mkState (store st) (tests st ++ List.map (fun x => mkTest (name x) (fn x)) xs)
           (fs_log st),
   Ok tt).
Proof.
  revert st. induction xs as [|x xs IH]; intros st; cbn [forEach List.map].
  - rewrite app_nil_r. by destruct st.
  - unfold bind, test at 1. rewrite IH. cbn [store tests fs_log].
    by rewrite <- app_assoc.
Qed.

Lemma ast_compare_Ok source path (l : loc) st st' merged :
  store st !! l = Some merged ->
  ast_compare source path l st = (st', Ok tt) ->
  exists ast normalizedOptions astMassaged,
    parse source merged = Ok ast
    /\ normalizeOptions merged = Ok normalizedOptions
    /\ massageAST ast normalizedOptions = Ok astMassaged
    /\ st' = mkState (store st)
                     (tests st ++
                        [mkTest (path +:+ " parse")
                           (parse_fn (snd (reparse source path merged normalizedOptions))
                                     (fst (reparse source path merged normalizedOptions))
                                     ast astMassaged)])
                     (fs_log st).
Proof.
  intros Hl. unfold ast_compare, bind, deref, call.
  rewrite (list_lookup_total_correct _ _ _ Hl).
  destruct (parse source merged) as [ast|e] eqn:Hp; [|discriminate].
  destruct (normalizeOptions merged) as [normalizedOptions|e] eqn:Hn; [|discriminate].
  destruct (massageAST ast normalizedOptions) as [astMassaged|e] eqn:Hm; [|discriminate].
  destruct (reparse source path merged normalizedOptions) as [ppastMassaged pperr] eqn:Hr.
  unfold test. intros [= <-]. exists ast, normalizedOptions, astMassaged.
  rewrite Hr. repeat split; assumption.
Qed.

Lemma for_pythonBin_Ok options parser0 alternates filename path source bin st st' :
  for_pythonBin options parser0 alternates filename path source bin st = (st', Ok tt) ->
  exists output round_trip,
    prettyprint source path (merged_options options parser0 bin) = Ok output
    /\ store st' = store st ++ [merged_options options parser0 bin]
    /\ fs_log st' = fs_log st
    /\ tests st' = tests st
                   ++ tests_of_pair filename path source output parser0 alternates
                                    (length (store st))
                   ++ round_trip
    /\ if env_truthy AST_COMPARE then
         exists ast normalizedOptions astMassaged,
           let merged := merged_options options parser0 bin in
           parse source merged = Ok ast
           /\ normalizeOptions merged = Ok normalizedOptions
           /\ massageAST ast normalizedOptions = Ok astMassaged
           /\ round_trip =
                [mkTest (path +:+ " parse")
                   (parse_fn (snd (reparse source path merged normalizedOptions))
                             (fst (reparse source path merged normalizedOptions))
                             ast astMassaged)]
       else round_trip = [].
Proof.
  unfold for_pythonBin, bind at 1, new_object.
  unfold bind at 1, deref. cbn [store tests fs_log].
  rewrite list_lookup_total_middle by reflexivity.
  unfold bind at 1, call.
  destruct (prettyprint source path (merged_options options parser0 bin))
    as [output|e]; [|discriminate].
  unfold bind at 1, test at 1. cbn [store tests fs_log].
  unfold bind at 1. rewrite forEach_test. cbn [store tests fs_log].
  intros Hrest. exists output.
  destruct (env_truthy AST_COMPARE).
  - eapply ast_compare_Ok in Hrest as (ast & nopts & astM & Hp & Hn & Hm & ->);
      [|cbn [store]; by apply list_lookup_middle].
    eexists. split; [reflexivity|]. split; [reflexivity|]. split; [reflexivity|].
    cbn [tests]. split; [|by eexists _, _, _].
    unfold tests_of_pair. by rewrite <- !app_assoc.
  - injection Hrest as <-. exists []. repeat split.
    cbn [tests]. unfold tests_of_pair. by rewrite app_nil_r, <- app_assoc.
Qed.

(** ** The loops of [run_spec] *)

Lemma for_fixture_Ok options parser0 alternates dirname versionRange filename st st' :
  for_fixture options parser0 alternates dirname versionRange filename st = (st', Ok tt) ->
  exists content s1,
    readFileSync (dirname +:+ "/" +:+ filename) = Ok content
    /\ grows st s1
    /\ fs_log s1 = fs_log st ++ [ReadFile (dirname +:+ "/" +:+ filename)]
    /\ forEach (selected_interpreters versionRange)
               (for_pythonBin options parser0 alternates filename
                  (dirname +:+ "/" +:+ filename) (Str.replace_crlf content)) s1
       = (st', Ok tt).
Proof.
  unfold for_fixture. cbv zeta. unfold bind at 1, read, bind at 1, log_fs, call.
  destruct (readFileSync (dirname +:+ "/" +:+ filename)) as [content|e] eqn:Hread;
    [|discriminate].
  unfold bind at 1. rewrite getPythonBinaries_eq. intros Hloop.
  eexists content, _. split; [reflexivity|]. split; [|split; [|exact Hloop]].
  - split; [exists []; cbn; by rewrite app_nil_r|]. split; by eexists.
  - reflexivity.
Qed.

(** A run that completes has run the innermost callback for every fixture
    of the listing and every selected interpreter. *)
Lemma run_spec_Ok_pair dirname parser0 alternates versionRange options st st' :
  run_spec dirname (Some (parser0 :: alternates)) versionRange options st = (st', Ok tt) ->
  exists entries,
    readdirSync dirname = Ok entries
    /\ forall filename,
         filename ∈ entries -> is_fixture dirname filename = Ok true ->
         exists content,
           readFileSync (dirname +:+ "/" +:+ filename) = Ok content
           /\ forall pythonBin,
                pythonBin ∈ selected_interpreters versionRange ->
                exists s s',
                  for_pythonBin (with_defaults options) parser0 alternates filename
                    (dirname +:+ "/" +:+ filename) (Str.replace_crlf content)
                    pythonBin s = (s', Ok tt)
                  /\ grows s' st'.
Proof.
  unfold run_spec. cbv zeta. unfold bind at 1, log_fs, bind at 1, call.
  destruct (readdirSync dirname) as [entries|e]; [|discriminate].
  intros Hloop. exists entries. split; [reflexivity|].
  intros filename Hin Hfix.
  eapply forEach_Ok_elem in Hloop as (s & s' & _ & Hone & Hs'); [| |exact Hin].
  2:{ intros y. apply monotone_for_filename. }
  unfold for_filename, bind at 1, call in Hone. rewrite Hfix in Hone.
  apply for_fixture_Ok in Hone as (content & s1 & Hread & _ & _ & Hbins).
  exists content. split; [assumption|]. intros pythonBin Hbin.
  eapply forEach_Ok_elem in Hbins as (s2 & s2' & _ & Hpair & Hs2'); [| |exact Hbin].
  2:{ intros y. apply monotone_for_pythonBin. }
  exists s2, s2'. split; [exact Hpair | by eapply grows_trans].
Qed.

(** ** What the registered tests may do to the store *)

Lemma parser_only_expect name e : parser_only (mkTest name (expect e)).
Proof. intros h. by left. Qed.

Lemma parser_only_snapshot name filename source output :
  parser_only (mkTest name (snapshot_fn filename source output)).
Proof. intros h. by left. Qed.

Lemma parser_only_parse name pperr ppastMassaged ast astMassaged :
  parser_only (mkTest name (parse_fn pperr ppastMassaged ast astMassaged)).
Proof.
  intros h. left. unfold run_test, parse_fn, t_bind, t_call, t_ret, expect. cbn [test_fn].
  destruct (holds (ToBeNull pperr)); [|reflexivity].
  destruct (holds (ToBeDefined ppastMassaged)); [|reflexivity].
  destruct (no_errors ast) as [[]|e]; [|reflexivity..].
  by destruct (holds _).
Qed.

Lemma parser_only_verify name source path output l parserName :
  parser_only (mkTest name (verify_fn source path output l parserName)).
Proof.
  intros h. right. exists l, (JStr parserName).
  unfold run_test, verify_fn, t_bind, t_assign, t_deref, t_call, expect. cbn [test_fn].
  assert (object_assign (h !!! l) {[ "parser" := JStr parserName ]}
          = <["parser" := JStr parserName]> (h !!! l)) as ->.
  { unfold object_assign. by rewrite <- insert_union_singleton_l. }
  destruct (prettyprint _ _ _) as [verifyOutput|e]; [|reflexivity].
  by destruct (holds _).
Qed.

Lemma same_but_parsers_refl h : same_but_parsers h h.
Proof. split; [reflexivity | by intros l key Hne]. Qed.

Lemma same_but_parsers_trans h1 h2 h3 :
  same_but_parsers h1 h2 -> same_but_parsers h2 h3 -> same_but_parsers h1 h3.
Proof.
  intros [Hlen1 H1] [Hlen2 H2]. split; [congruence|].
  intros l key Hne. by rewrite (H1 l key Hne), (H2 l key Hne).
Qed.

Lemma parser_only_same t h : parser_only t -> same_but_parsers (fst (run_test t h)) h.
Proof.
  intros Ht. destruct (Ht h) as [->|(l & v & ->)]; [apply same_but_parsers_refl|].
  split; [apply length_insert|]. intros l' key Hne.
  destruct (decide (l = l')) as [<-|Hl].
  - destruct (decide (l < length h)) as [Hlt|Hge].
    + rewrite list_lookup_total_insert_eq by assumption. by rewrite lookup_insert_ne.
    + rewrite list_insert_ge by lia. reflexivity.
  - by rewrite list_lookup_total_insert_ne.
Qed.

Lemma run_tests_same ts h : Forall parser_only ts -> same_but_parsers (run_tests ts h) h.
Proof.
  intros Hts. revert h. induction Hts as [|t ts Ht _ IH]; intros h; cbn [run_tests].
  - apply same_but_parsers_refl.
  - eapply same_but_parsers_trans; [apply IH | by apply parser_only_same].
Qed.

Lemma same_but_parsers_lookup h h' (l : loc) reference :
  same_but_parsers h h' -> h' !! l = Some reference ->
  exists current, h !! l = Some current /\ same_but_parser current reference.
Proof.
  intros [Hlen Hsame] Hl. pose proof (lookup_lt_Some _ _ _ Hl) as Hlt.
  rewrite <- Hlen in Hlt. apply lookup_lt_is_Some_2 in Hlt as [current Hcur].
  exists current. split; [assumption|].
  rewrite <- (list_lookup_total_correct _ _ _ Hcur), <- (list_lookup_total_correct _ _ _ Hl).
  apply Hsame.
Qed.

Lemma forEach_Ok_tests {A} (f : A -> M unit) (P : Test -> Prop) xs st st' :
  (forall x s s', f x s = (s', Ok tt) ->
                  exists ts, tests s' = tests s ++ ts /\ Forall P ts) ->
  forEach xs f st = (st', Ok tt) ->
  exists ts, tests st' = tests st ++ ts /\ Forall P ts.
Proof.
  intros Hf. revert st. induction xs as [|x xs IH]; intros st; cbn [forEach].
  - intros [= <-]. exists []. split; [by rewrite app_nil_r | constructor].
  - unfold bind. destruct (f x st) as [s1 [[]|e]] eqn:Hx; [|discriminate].
    intros Hrest. destruct (Hf _ _ _ Hx) as (ts1 & E1 & H1).
    destruct (IH _ Hrest) as (ts2 & E2 & H2).
    exists (ts1 ++ ts2). split; [|by apply Forall_app].
    by rewrite E2, E1, app_assoc.
Qed.

Lemma for_pythonBin_parser_only options parser0 alternates filename path source bin s s' :
  for_pythonBin options parser0 alternates filename path source bin s = (s', Ok tt) ->
  exists ts, tests s' = tests s ++ ts /\ Forall parser_only ts.
Proof.
  intros H. apply for_pythonBin_Ok in H as (output & rt & _ & _ & _ & -> & Hrt).
  eexists. split; [reflexivity|]. apply Forall_app. split.
  - unfold tests_of_pair. constructor; [apply parser_only_snapshot|].
    apply Forall_forall. intros t Hin.
    apply list_elem_of_In, in_map_iff in Hin as (parserName & <- & _).
    apply parser_only_verify.
  - destruct (env_truthy AST_COMPARE).
    + destruct Hrt as (ast & nopts & astM & _ & _ & _ & ->).
      constructor; [apply parser_only_parse | constructor].
    + subst rt. constructor.
Qed.

(** The tests a completed run has added assign nothing but parsers. *)
Lemma run_spec_parser_only dirname parser0 alternates versionRange options st st' :
  run_spec dirname (Some (parser0 :: alternates)) versionRange options st = (st', Ok tt) ->
  exists registered, tests st' = tests st ++ registered /\ Forall parser_only registered.
Proof.
  unfold run_spec. cbv zeta. unfold bind at 1, log_fs, bind at 1, call.
  destruct (readdirSync dirname) as [entries|e]; [|discriminate].
  intros Hloop. eapply forEach_Ok_tests in Hloop as (ts & Hts & Hall).
  - exists ts. split; [exact Hts | exact Hall].
  - intros filename s s'. unfold for_filename, bind at 1, call.
    destruct (is_fixture dirname filename) as [[]|e]; [| |discriminate].
    + intros Hfix. unfold for_fixture in Hfix. cbv zeta in Hfix.
      unfold bind at 1, read, bind at 1, log_fs, call in Hfix.
      destruct (readFileSync _) as [content|e]; [|discriminate].
      unfold bind at 1 in Hfix. rewrite getPythonBinaries_eq in Hfix.
      eapply forEach_Ok_tests in Hfix as (ts & Hts & Hall).
      * cbn [tests] in Hts. rewrite <- app_assoc in Hts. eexists. split; [exact Hts|].
        apply Forall_app. split; [|exact Hall].
        constructor; [apply parser_only_expect|].
        case_bool_decide; constructor; [apply parser_only_expect | constructor].
      * intros bin s1 s1'. apply for_pythonBin_parser_only.
    + intros [= <-]. exists []. split; [by rewrite app_nil_r | constructor].
Qed.

(** ** Cross-parser verification *)

Lemma merged_options_parser options parser0 pythonBin :
  merged_options options parser0 pythonBin !! "parser" = Some (JStr parser0).
Proof.
  unfold merged_options, object_assign.
  apply lookup_union_Some_l. by rewrite lookup_insert_eq.
Qed.

Lemma insert_parser_same current reference v :
  same_but_parser current reference ->
  <["parser" := v]> current = <["parser" := v]> reference.
Proof.
  intros Hsame. apply map_eq. intros key.
  destruct (decide (key = "parser")) as [->|Hne].
  - by rewrite !lookup_insert_eq.
  - rewrite !lookup_insert_ne by done. by apply Hsame.
Qed.

Lemma same_but_parser_insert reference v :
  same_but_parser (<["parser" := v]> reference) reference.
Proof. intros key Hne. by rewrite lookup_insert_ne. Qed.

Lemma elem_of_tests_of_pair filename path source output parser0 alternates l parserName :
  parserName ∈ alternates ->
  mkTest (filename +:+ " - " +:+ parserName +:+ "-verify")
         (verify_fn source path output l parserName)
  ∈ tests_of_pair filename path source output parser0 alternates l.
Proof.
  intros Hin. unfold tests_of_pair. apply elem_of_cons. right.
  apply list_elem_of_In, in_map_iff. exists parserName.
  split; [reflexivity | by apply list_elem_of_In].
Qed.

(** What a completed run has set up for one fixture, one interpreter and
    one alternate parser: the reference option set in the store, the
    reference output, and the registered test over that very object. *)
Lemma run_spec_Ok_verify dirname parser0 alternates versionRange options st st'
    entries filename content pythonBin parserName :
  run_spec dirname (Some (parser0 :: alternates)) versionRange options st = (st', Ok tt) ->
  readdirSync dirname = Ok entries ->
  filename ∈ entries ->
  is_fixture dirname filename = Ok true ->
  readFileSync (dirname +:+ "/" +:+ filename) = Ok content ->
  pythonBin ∈ selected_interpreters versionRange ->
  parserName ∈ alternates ->
  exists (l : loc) output,
    store st' !! l = Some (merged_options (with_defaults options) parser0 pythonBin)
    /\ prettyprint (Str.replace_crlf content) (dirname +:+ "/" +:+ filename)
         (merged_options (with_defaults options) parser0 pythonBin) = Ok output
    /\ mkTest (filename +:+ " - " +:+ parserName +:+ "-verify")
         (verify_fn (Str.replace_crlf content) (dirname +:+ "/" +:+ filename)
            output l parserName)
       ∈ tests st'.
Proof.
  intros Hrun Hdir Hin Hfix Hread Hbin Hparser.
  apply run_spec_Ok_pair in Hrun as (entries' & Hdir' & Hpairs).
  rewrite Hdir in Hdir'. injection Hdir' as <-.
  destruct (Hpairs filename Hin Hfix) as (content' & Hread' & Hbins).
  rewrite Hread in Hread'. injection Hread' as <-.
  destruct (Hbins pythonBin Hbin) as (s & s' & Hpair & Hgrows).
  apply for_pythonBin_Ok in Hpair as (output & rt & Hout & Hstore & _ & Htests & _).
  exists (length (store s)), output. split; [|split; [exact Hout|]].
  - eapply grows_store; [exact Hgrows|]. rewrite Hstore. by apply list_lookup_middle.
  - eapply grows_tests; [exact Hgrows|]. rewrite Htests.
    apply elem_of_app. right. apply elem_of_app. left.
    by apply elem_of_tests_of_pair.
Qed.

(** C2: in a run that completes, every fixture, every selected interpreter
    and every parser after the first have their verification test.  However
    many of the tests this run has registered have run before it, in
    whatever order, the shared option object still is the reference set but
    for its parser; on such a store the test formats the same source under
    the reference set with only the parser replaced, and passes exactly
    when the formatter returns the very string the primary parser gave. *)
Theorem C2_alternate_parser_same_output
    dirname parser0 alternates versionRange options st st'
    entries filename content pythonBin parserName :
  run_spec dirname (Some (parser0 :: alternates)) versionRange options st = (st', Ok tt) ->
  readdirSync dirname = Ok entries ->
  filename ∈ entries ->
  is_fixture dirname filename = Ok true ->
  readFileSync (dirname +:+ "/" +:+ filename) = Ok content ->
  pythonBin ∈ selected_interpreters versionRange ->
  parserName ∈ alternates ->
  let path := dirname +:+ "/" +:+ filename in
  let source := Str.replace_crlf content in
  let reference := merged_options (with_defaults options) parser0 pythonBin in
  let derived := <["parser" := JStr parserName]> reference in
  exists (l : loc) output verification registered,
    store st' !! l = Some reference
    /\ reference !! "parser" = Some (JStr parser0)
    /\ prettyprint source path reference = Ok output
    /\ tests st' = tests st ++ registered
    /\ verification ∈ tests st'
    /\ test_name verification = filename +:+ " - " +:+ parserName +:+ "-verify"
    /\ same_but_parser derived reference
    /\ derived !! "parser" = Some (JStr parserName)
    /\ (forall earlier : list Test,
          (forall t, t ∈ earlier -> t ∈ registered) ->
          exists current,
            run_tests earlier (store st') !! l = Some current
            /\ same_but_parser current reference)
    /\ forall (h : Store) current,
         h !! l = Some current ->
         same_but_parser current reference ->
         run_test verification h =
           (<[l := derived]> h,
            match prettyprint source path derived with
            | Ok verifyOutput => check_all [ToEqualString output verifyOutput]
            | Throw e => Throw (Thrown e)
            end)
         /\ (snd (run_test verification h) = Ok tt
             <-> prettyprint source path derived = Ok output).
Proof.
  intros Hrun Hdir Hin Hfix Hread Hbin Hparser path source reference derived.
  destruct (run_spec_Ok_verify _ _ _ _ _ _ _ _ _ _ _ _ Hrun Hdir Hin Hfix Hread Hbin Hparser)
    as (l & output & Hl & Hout & Htest).
  destruct (run_spec_parser_only _ _ _ _ _ _ _ Hrun) as (registered & Hreg & Hall).
  eexists l, output, _, registered. split; [exact Hl|].
  split; [apply merged_options_parser|]. split; [exact Hout|].
  split; [exact Hreg|]. split; [exact Htest|]. split; [reflexivity|].
  split; [apply same_but_parser_insert|]. split; [apply lookup_insert_eq|].
  split.
  { intros earlier Hearlier. eapply same_but_parsers_lookup; [|exact Hl].
    apply run_tests_same. apply Forall_forall. intros t Ht.
    eapply Forall_forall in Hall; [exact Hall | by apply Hearlier]. }
  intros h current Hcur Hsame. unfold run_test. cbn [test_fn].
  fold path source. rewrite (verify_fn_run _ _ _ _ _ _ _ Hcur).
  rewrite (insert_parser_same _ _ _ Hsame). fold reference derived.
  split; [reflexivity|]. cbn [snd].
  destruct (prettyprint source path derived) as [verifyOutput|e].
  - cbn [check_all holds]. destruct (String.eqb_spec output verifyOutput) as [->|Hne].
    + by split.
    + split; [discriminate | intros [= ->]; contradiction].
  - split; discriminate.
Qed.

(** C10: the test of an alternate parser does not copy the reference option
    set: it assigns the parser into the object the enclosing callback
    created, the one at the location where the completed run left the
    reference set.  After the test has run, whatever its verdict, that
    object has the alternate parser under ["parser"] and every other field
    as before, and no other object of the store has changed. *)
Theorem C10_reference_options_mutated
    dirname parser0 alternates versionRange options st st'
    entries filename content pythonBin parserName :
  run_spec dirname (Some (parser0 :: alternates)) versionRange options st = (st', Ok tt) ->
  readdirSync dirname = Ok entries ->
  filename ∈ entries ->
  is_fixture dirname filename = Ok true ->
  readFileSync (dirname +:+ "/" +:+ filename) = Ok content ->
  pythonBin ∈ selected_interpreters versionRange ->
  parserName ∈ alternates ->
  exists (l : loc) verification,
    store st' !! l = Some (merged_options (with_defaults options) parser0 pythonBin)
    /\ verification ∈ tests st'
    /\ test_name verification = filename +:+ " - " +:+ parserName +:+ "-verify"
    /\ forall (h : Store) current,
         h !! l = Some current ->
         exists updated,
           fst (run_test verification h) = <[l := updated]> h
           /\ fst (run_test verification h) !! l = Some updated
           /\ updated !! "parser" = Some (JStr parserName)
           /\ (forall key : string, key <> "parser" -> updated !! key = current !! key)
           /\ (forall l' : loc, l' <> l ->
                 fst (run_test verification h) !! l' = h !! l').
Proof.
  intros Hrun Hdir Hin Hfix Hread Hbin Hparser.
  destruct (run_spec_Ok_verify _ _ _ _ _ _ _ _ _ _ _ _ Hrun Hdir Hin Hfix Hread Hbin Hparser)
    as (l & output & Hl & Hout & Htest).
  eexists l, _. split; [exact Hl|]. split; [exact Htest|]. split; [reflexivity|].
  intros h current Hcur. exists (<["parser" := JStr parserName]> current).
  unfold run_test. cbn [test_fn]. rewrite (verify_fn_run _ _ _ _ _ _ _ Hcur). cbn [fst].
  split; [reflexivity|]. split.
  { apply list_lookup_insert_eq. by eapply lookup_lt_Some. }
  split; [apply lookup_insert_eq|]. split.
  - intros key Hne. by rewrite lookup_insert_ne.
  - intros l' Hne. by rewrite list_lookup_insert_ne.
Qed.

(** ** The structural round trip *)

Lemma check_all_Ok es : check_all es = Ok tt <-> Forall (fun e => holds e = true) es.
Proof.
  induction es as [|e es IH]; cbn [check_all].
  - split; [constructor | reflexivity].
  - destruct (holds e) eqn:He.
    + rewrite IH. split; [by constructor | by inversion 1].
    + split; [discriminate | inversion 1; congruence].
Qed.


Lemma run_spec_Ok_round_trip dirname parser0 alternates versionRange options st st'
    entries filename content pythonBin :
  env_truthy AST_COMPARE = true ->
  run_spec dirname (Some (parser0 :: alternates)) versionRange options st = (st', Ok tt) ->
  readdirSync dirname = Ok entries ->
  filename ∈ entries ->
  is_fixture dirname filename = Ok true ->
  readFileSync (dirname +:+ "/" +:+ filename) = Ok content ->
  pythonBin ∈ selected_interpreters versionRange ->
  let path := dirname +:+ "/" +:+ filename in
  let source := Str.replace_crlf content in
  let merged := merged_options (with_defaults options) parser0 pythonBin in
  exists ast normalizedOptions astMassaged,
    parse source merged = Ok ast
    /\ normalizeOptions merged = Ok normalizedOptions
    /\ massageAST ast normalizedOptions = Ok astMassaged
    /\ mkTest (path +:+ " parse")
         (parse_fn (snd (reparse source path merged normalizedOptions))
                   (fst (reparse source path merged normalizedOptions))
                   ast astMassaged)
       ∈ tests st'.
Proof.
  intros Hflag Hrun Hdir Hin Hfix Hread Hbin path source merged.
  apply run_spec_Ok_pair in Hrun as (entries' & Hdir' & Hpairs).
  rewrite Hdir in Hdir'. injection Hdir' as <-.
  destruct (Hpairs filename Hin Hfix) as (content' & Hread' & Hbins).
  rewrite Hread in Hread'. injection Hread' as <-.
  destruct (Hbins pythonBin Hbin) as (s & s' & Hpair & Hgrows).
  apply for_pythonBin_Ok in Hpair as (output & rt & _ & _ & _ & Htests & Hrt).
  rewrite Hflag in Hrt. destruct Hrt as (ast & nopts & astM & Hp & Hn & Hm & ->).
  exists ast, nopts, astM. split; [exact Hp|]. split; [exact Hn|]. split; [exact Hm|].
  eapply grows_tests; [exact Hgrows|]. rewrite Htests.
  apply elem_of_app. right. apply elem_of_app. right. by apply list_elem_of_singleton.
Qed.

Lemma obj_get_strip_props props key :
  key <> "text" ->
  obj_get (strip_props props) key
  = option_map stripExtraNonComparableKeys (obj_get props key).
Proof.
  intros Hkey. unfold strip_props.
  induction props as [|[k w] props IH]; [reflexivity|].
  cbn [List.filter fst]. destruct (String.eqb_spec k "text") as [->|Hne];
    cbn [negb List.map obj_get fst snd].
  - rewrite IH. by destruct (String.eqb_spec "text" key).
  - destruct (String.eqb_spec k key); [reflexivity | exact IH].
Qed.

(** An error list that is [null] is no error list for the guard of the
    round-trip test, and is one, not empty, once the tree is stripped. *)
Lemma no_errors_null props :
  NoDup (List.map fst props) ->
  obj_get props "errors" = Some JNull ->
  no_errors (JObj props) = Ok true
  /\ no_errors (stripExtraNonComparableKeys (JObj props)) = Ok false.
Proof.
  intros Hnd Herrors. split.
  - unfold no_errors, js_get. by rewrite Herrors.
  - rewrite strip_object_distinct by exact Hnd.
    unfold no_errors, js_get. rewrite obj_get_strip_props by discriminate.
    by rewrite Herrors.
Qed.

(** C1 at an error list that is [null]: a parser reports that there is no
    error by a [null] under ["errors"], which the guard of the round-trip
    test takes for an absent list.  The tree the test looks at has been
    stripped, and the [null] rebuilt as an object, which the guard takes
    for a list that is not empty: the registered test makes its first two
    assertions and never the third, so that it passes whenever formatting,
    re-parsing and massaging returned, whether the two trees are equal or
    not. *)
Theorem C1_null_errors_skip_equality
    dirname parser0 alternates versionRange options st st'
    entries filename content pythonBin props :
  env_truthy AST_COMPARE = true ->
  run_spec dirname (Some (parser0 :: alternates)) versionRange options st = (st', Ok tt) ->
  readdirSync dirname = Ok entries ->
  filename ∈ entries ->
  is_fixture dirname filename = Ok true ->
  readFileSync (dirname +:+ "/" +:+ filename) = Ok content ->
  pythonBin ∈ selected_interpreters versionRange ->
  let path := dirname +:+ "/" +:+ filename in
  let source := Str.replace_crlf content in
  let merged := merged_options (with_defaults options) parser0 pythonBin in
  prettier_debug_parse source merged = Ok (JObj props) ->
  NoDup (List.map fst props) ->
  obj_get props "errors" = Some JNull ->
  no_errors (JObj props) = Ok true
  /\ exists normalizedOptions astMassaged round_trip,
       let ppastMassaged := fst (reparse source path merged normalizedOptions) in
       let pperr := snd (reparse source path merged normalizedOptions) in
       normalizeOptions merged = Ok normalizedOptions
       /\ massageAST (stripExtraNonComparableKeys (JObj props)) normalizedOptions
          = Ok astMassaged
       /\ round_trip ∈ tests st'
       /\ test_name round_trip = path +:+ " parse"
       /\ (forall h : Store,
             run_test round_trip h
             = (h, check_all [ToBeNull pperr; ToBeDefined ppastMassaged]))
       /\ (forall h : Store,
             snd (run_test round_trip h) = Ok tt
             <-> pperr = JNull /\ ppastMassaged <> JUndefined).
Proof.
  intros Hflag Hrun Hdir Hin Hfix Hread Hbin path source merged Hraw Hnd Herrors.
  destruct (no_errors_null props Hnd Herrors) as [Hguard Hstripped].
  split; [exact Hguard|].
  destruct (run_spec_Ok_round_trip _ _ _ _ _ _ _ _ _ _ _ Hflag Hrun Hdir Hin Hfix Hread Hbin)
    as (ast & nopts & astM & Hp & Hn & Hm & Htest).
  fold path source merged in Hp, Hn, Hm, Htest.
  unfold parse in Hp. rewrite Hraw in Hp. injection Hp as <-.
  eexists nopts, astM, _. cbv zeta.
  split; [exact Hn|]. split; [exact Hm|]. split; [exact Htest|].
  split; [reflexivity|].
  set (pp := fst (reparse source path merged nopts)).
  set (pperr := snd (reparse source path merged nopts)).
  assert (Hbody : forall h : Store,
    run_test (mkTest (path +:+ " parse")
                (parse_fn pperr pp (stripExtraNonComparableKeys (JObj props)) astM)) h
    = (h, check_all [ToBeNull pperr; ToBeDefined pp])).
  { intros h. unfold run_test, parse_fn, t_bind, t_call, t_ret, expect.
    cbn [test_fn check_all]. rewrite Hstripped.
    destruct (holds (ToBeNull pperr)); [|reflexivity].
    by destruct (holds (ToBeDefined pp)). }
  split; [exact Hbody|].
  intros h. rewrite Hbody. cbn [snd]. rewrite check_all_Ok, !Forall_cons, Forall_nil.
  cbn [holds]. split.
  - intros (H1 & H2 & _). split; [by destruct pperr|]. intros Hu. rewrite Hu in H2.
    discriminate.
  - intros (-> & H2). repeat split. by destruct pp.
Qed.

(** With [null] rebuilt as an object, an ["errors"] property that is [null]
    no longer counts as an absent error list. *)
Example null_errors_after_strip :
  no_errors (JObj [("errors", JNull)]) = Ok true
  /\ no_errors (stripExtraNonComparableKeys (JObj [("errors", JNull)])) = Ok false.
Proof. split; reflexivity. Qed.


(** ** Fixture enumeration *)

Lemma is_fixture_eligible dirname filename :
  is_fixture dirname filename = Ok true <-> eligible dirname filename.
Proof.
  unfold is_fixture, eligible.
  destruct (String.eqb_spec (extname filename) ".snap") as [Hsnap|Hsnap]; cbn [negb].
  { split; [discriminate | tauto]. }
  destruct (lstat_isFile _) as [[]|e]; cbn [res_map res_bind andb].
  - case_bool_decide as Hdot; cbn [negb andb].
    + split; [discriminate | tauto].
    + destruct (String.eqb_spec filename "jsfmt.spec.js"); cbn [negb].
      * split; [discriminate | tauto].
      * split; [intros _; by repeat split | reflexivity].
  - split; [discriminate | intros (H & _); discriminate H].
  - split; [discriminate | intros (H & _); discriminate H].
Qed.

Lemma fixture_true dirname filename :
  fixture dirname filename = true <-> is_fixture dirname filename = Ok true.
Proof.
  unfold fixture, returned_true.
  destruct (is_fixture dirname filename) as [[]|e]; split; congruence.
Qed.

(** The condition throws exactly when the entry has to be looked up and
    the look-up throws. *)
Lemma is_fixture_Throw dirname filename e :
  is_fixture dirname filename = Throw e <->
  extname filename <> ".snap" /\ lstat_isFile (dirname +:+ "/" +:+ filename) = Throw e.
Proof.
  unfold is_fixture.
  destruct (String.eqb_spec (extname filename) ".snap") as [Hsnap|Hsnap]; cbn [negb].
  { split; [discriminate | tauto]. }
  destruct (lstat_isFile _) as [isFile|e']; cbn [res_map res_bind].
  - split; [discriminate | intros [_ H]; discriminate H].
  - split; [intros [= ->]; by split | intros [_ [= ->]]; reflexivity].
Qed.

Lemma visited_all dirname entries :
  snd (visited dirname entries) = None <->
  Forall (fun filename => exists verdict, is_fixture dirname filename = Ok verdict) entries.
Proof.
  induction entries as [|filename entries IH]; cbn [visited].
  - split; [constructor | reflexivity].
  - rewrite Forall_cons. destruct (is_fixture dirname filename) as [verdict|e]; cbn [snd].
    + rewrite IH. split; [intros H; split; [by exists verdict | exact H] | tauto].
    + split; [discriminate | intros [[verdict [=]] _]].
Qed.

Lemma visited_all_fst dirname entries :
  snd (visited dirname entries) = None -> fst (visited dirname entries) = entries.
Proof.
  induction entries as [|filename entries IH]; cbn [visited]; [reflexivity|].
  destruct (is_fixture dirname filename) as [verdict|e]; cbn [fst snd]; [|discriminate].
  intros H. by rewrite (IH H).
Qed.

(** The loop over a listing is the loop over the fixtures among the entries
    it gets to, followed by what the condition throws, if it does. *)
Lemma forEach_visited options parser0 alternates dirname versionRange entries st :
  forEach entries (for_filename options parser0 alternates dirname versionRange) st
  = bind (forEach (List.filter (fixture dirname) (fst (visited dirname entries)))
                  (for_fixture options parser0 alternates dirname versionRange))
         (fun _ => match snd (visited dirname entries) with
                   | None => ret tt
                   | Some e => throw e
                   end) st.
Proof.
  revert st. induction entries as [|filename entries IH]; intros st; [reflexivity|].
  cbn [forEach visited]. unfold bind at 1, for_filename at 1, bind at 1, call.
  destruct (is_fixture dirname filename) as [[]|e] eqn:Hfix; cbn [fst snd List.filter].
  - unfold fixture at 1. rewrite Hfix. cbn [returned_true forEach].
    unfold bind at 1. unfold bind at 1.
    destruct (for_fixture _ _ _ _ _ filename st) as [s1 [[]|e]]; [apply IH | reflexivity].
  - unfold fixture at 1. rewrite Hfix. cbn [returned_true]. apply IH.
  - reflexivity.
Qed.

Lemma bind_ret_tt (m : M unit) st : bind m (fun _ => ret tt) st = m st.
Proof. unfold bind, ret. by destruct (m st) as [s [[]|e]]. Qed.

(** A run that completes has looked up every entry it had to, and is the
    loop over the fixtures of the listing. *)
Lemma run_spec_Ok_loop dirname parser0 alternates versionRange options entries st st' :
  readdirSync dirname = Ok entries ->
  run_spec dirname (Some (parser0 :: alternates)) versionRange options st = (st', Ok tt) ->
  snd (visited dirname entries) = None
  /\ forEach (List.filter (fixture dirname) entries)
             (for_fixture (with_defaults options) parser0 alternates dirname versionRange)
             (mkState (store st) (tests st) (fs_log st ++ [ReadDir dirname]))
     = (st', Ok tt).
Proof.
  intros Hdir. unfold run_spec. cbv zeta. unfold bind at 1, log_fs, bind at 1, call.
  rewrite Hdir, forEach_visited. fold (with_defaults options).
  destruct (snd (visited dirname entries)) as [e|] eqn:Hstat.
  - unfold bind, throw.
    destruct (forEach _ _ _) as [s [[]|e']]; discriminate.
  - rewrite bind_ret_tt, (visited_all_fst _ _ Hstat). by split.
Qed.

Lemma forEach_Ok_fs_log {A} (f : A -> M unit) (events : A -> list FsEvent) xs st st' :
  (forall x s s', f x s = (s', Ok tt) -> fs_log s' = fs_log s ++ events x) ->
  forEach xs f st = (st', Ok tt) ->
  fs_log st' = fs_log st ++ concat (List.map events xs).
Proof.
  intros Hf. revert st. induction xs as [|x xs IH]; intros st; cbn [forEach].
  - intros [= <-]. cbn. by rewrite app_nil_r.
  - unfold bind. destruct (f x st) as [s1 [[]|e]] eqn:Hx; [|discriminate].
    intros Hrest. rewrite (IH _ Hrest), (Hf _ _ _ Hx). cbn [List.map concat].
    by rewrite app_assoc.
Qed.

Lemma concat_map_nil {A B} (xs : list A) : concat (List.map (fun _ => @nil B) xs) = [].
Proof. induction xs; cbn; auto. Qed.

Lemma concat_map_singleton {A B} (g : A -> B) (xs : list A) :
  concat (List.map (fun x => [g x]) xs) = List.map g xs.
Proof. induction xs as [|x xs IH]; cbn; [reflexivity | by rewrite IH]. Qed.

Lemma for_fixture_fs_log options parser0 alternates dirname versionRange filename st st' :
  for_fixture options parser0 alternates dirname versionRange filename st = (st', Ok tt) ->
  fs_log st' = fs_log st ++ [ReadFile (dirname +:+ "/" +:+ filename)].
Proof.
  intros H. apply for_fixture_Ok in H as (content & s1 & _ & _ & Hlog & Hloop).
  eapply (forEach_Ok_fs_log _ (fun _ => [])) in Hloop.
  - by rewrite Hloop, concat_map_nil, app_nil_r.
  - intros bin s s' Hpair.
    apply for_pythonBin_Ok in Hpair as (_ & _ & _ & _ & -> & _). by rewrite app_nil_r.
Qed.

(** C7: the callbacks of the directory listing do their work on exactly the
    entries that are regular files, do not have the extension [.snap], do
    not start with "." and are not [jsfmt.spec.js], in the order of the
    listing: a run is the loop over those entries, as far as the listing
    can be looked up (all of it when no look-up throws), and a run that
    completes has read the directory once, no other directory, and then
    the files of those entries, in that order. *)
Theorem C7_fixture_enumeration
    dirname parser0 alternates versionRange options entries :
  readdirSync dirname = Ok entries ->
  let fixtures := List.filter (fixture dirname) entries in
  let callback :=
    for_fixture (with_defaults options) parser0 alternates dirname versionRange in
  (forall filename, filename ∈ fixtures <-> filename ∈ entries /\ eligible dirname filename)
  /\ (forall st,
        run_spec dirname (Some (parser0 :: alternates)) versionRange options st =
        bind (forEach (List.filter (fixture dirname) (fst (visited dirname entries)))
                      callback)
             (fun _ => match snd (visited dirname entries) with
                       | None => ret tt
                       | Some e => throw e
                       end)
             (mkState (store st) (tests st) (fs_log st ++ [ReadDir dirname])))
  /\ (Forall (fun filename => exists verdict, is_fixture dirname filename = Ok verdict)
             entries ->
      forall st,
        run_spec dirname (Some (parser0 :: alternates)) versionRange options st =
        forEach fixtures callback
                (mkState (store st) (tests st) (fs_log st ++ [ReadDir dirname])))
  /\ (forall st st',
        run_spec dirname (Some (parser0 :: alternates)) versionRange options st
        = (st', Ok tt) ->
        fs_log st' =
        fs_log st ++ ReadDir dirname
          :: List.map (fun filename => ReadFile (dirname +:+ "/" +:+ filename)) fixtures).
Proof.
  intros Hdir fixtures callback.
  assert (Hprog : forall st,
    run_spec dirname (Some (parser0 :: alternates)) versionRange options st =
    bind (forEach (List.filter (fixture dirname) (fst (visited dirname entries)))
                  callback)
         (fun _ => match snd (visited dirname entries) with
                   | None => ret tt
                   | Some e => throw e
                   end)
         (mkState (store st) (tests st) (fs_log st ++ [ReadDir dirname]))).
  { intros st. unfold run_spec. cbv zeta. unfold bind at 1, log_fs, bind at 1, call.
    rewrite Hdir. apply forEach_visited. }
  split; [|split; [exact Hprog|split]].
  - intros filename. unfold fixtures.
    rewrite <- is_fixture_eligible, <- fixture_true, !list_elem_of_In, filter_In.
    reflexivity.
  - intros Hstat st. apply visited_all in Hstat.
    rewrite Hprog, Hstat, bind_ret_tt, (visited_all_fst _ _ Hstat). reflexivity.
  - intros st st' Hrun.
    apply (run_spec_Ok_loop _ _ _ _ _ _ _ _ Hdir) in Hrun as [_ Hrun].
    eapply (forEach_Ok_fs_log _ (fun filename => [ReadFile (dirname +:+ "/" +:+ filename)]))
      in Hrun.
    + rewrite Hrun, concat_map_singleton. cbn [fs_log]. by rewrite <- app_assoc.
    + intros filename s s'. apply for_fixture_fs_log.
Qed.

End Properties.

(** * Further properties of the code *)

(** ** Trees after the extra normalization step *)

Section StripNormal.

Lemma distinct_NoDup keys : distinct keys = true <-> NoDup keys.
Proof.
  induction keys as [|k keys IH]; cbn [distinct].
  - split; [constructor | reflexivity].
  - rewrite andb_true_iff, negb_true_iff, IH, NoDup_cons. apply and_iff_compat_r.
    rewrite <- not_true_iff_false, existsb_exists. split.
    + intros Hno Hin. apply Hno. exists k. split; [by apply list_elem_of_In | apply String.eqb_refl].
    + intros Hno (k' & Hin & Heq). apply String.eqb_eq in Heq as <-.
      by apply Hno, list_elem_of_In.
Qed.

Lemma stripped_obj ps : stripped (JObj ps) = true <-> stripped_props ps.
Proof.
  unfold stripped_props. cbn [stripped].
  rewrite andb_true_iff, distinct_NoDup, forallb_forall, Forall_forall.
  apply and_iff_compat_l. split; intros H kv Hin.
  - apply list_elem_of_In, H in Hin. apply andb_true_iff in Hin as [Ht Hs].
    split; [|exact Hs]. apply negb_true_iff in Ht. by apply String.eqb_neq.
  - apply list_elem_of_In, H in Hin as [Ht Hs]. apply andb_true_iff.
    split; [|exact Hs]. apply negb_true_iff. by apply String.eqb_neq.
Qed.

Lemma obj_set_keys acc key v :
  List.map fst (obj_set acc key v)
  = if bool_decide (key ∈ List.map fst acc) then List.map fst acc
    else List.map fst acc ++ [key].
Proof.
  induction acc as [|[k w] acc IH]; cbn [obj_set List.map fst].
  - rewrite bool_decide_eq_false_2 by apply not_elem_of_nil. reflexivity.
  - destruct (String.eqb_spec k key) as [->|Hne]; cbn [List.map fst].
    + rewrite bool_decide_eq_true_2 by apply list_elem_of_here. reflexivity.
    + rewrite IH. case_bool_decide as Hin.
      * rewrite bool_decide_eq_true_2 by (by apply list_elem_of_further). reflexivity.
      * rewrite bool_decide_eq_false_2; [reflexivity|].
        rewrite elem_of_cons. intros [->|?]; congruence.
Qed.

Lemma obj_set_stripped acc key v :
  key <> "text" -> stripped v = true ->
  stripped_props acc -> stripped_props (obj_set acc key v).
Proof.
  intros Hkey Hv [Hnd Hall]. split.
  - rewrite obj_set_keys. case_bool_decide as Hin; [exact Hnd|].
    apply NoDup_app. split; [exact Hnd|]. split; [|apply NoDup_singleton].
    intros k Hk Hk'. apply list_elem_of_singleton in Hk' as ->. contradiction.
  - clear Hnd. induction Hall as [|[k w] acc Hkw Hall IH]; cbn [obj_set].
    + by constructor.
    + destruct (String.eqb_spec k key) as [->|Hne]; constructor; auto.
Qed.

Lemma for_in_stripped ps acc :
  Forall (fun kv => stripped (stripExtraNonComparableKeys (snd kv)) = true) ps ->
  stripped_props acc -> stripped_props (for_in ps acc).
Proof.
  intros Hps. revert acc. induction Hps as [|[k w] ps Hw _ IH]; intros acc Hacc.
  - exact Hacc.
  - cbn [for_in]. destruct (String.eqb_spec k "text") as [->|Hne]; [by apply IH|].
    apply IH. by apply obj_set_stripped.
Qed.

Lemma strip_is_stripped v : stripped (stripExtraNonComparableKeys v) = true.
Proof.
  induction v as [| | b | n | s | elems IH | props IH] using JsVal_nested_ind;
    try reflexivity.
  - cbn [stripExtraNonComparableKeys stripped]. apply forallb_forall.
    intros e He. apply in_map_iff in He as (e' & <- & He').
    eapply Forall_forall in IH; [exact IH | by apply list_elem_of_In].
  - rewrite strip_obj. apply stripped_obj, for_in_stripped; [exact IH|].
    split; constructor.
Qed.

Lemma stripped_is_fixed v : stripped v = true -> stripExtraNonComparableKeys v = v.
Proof.
  induction v as [| | b | n | s | elems IH | props IH] using JsVal_nested_ind;
    try reflexivity; try discriminate.
  - cbn [stripped stripExtraNonComparableKeys]. intros Hall. f_equal.
    induction IH as [|e elems He _ IHe]; [reflexivity|].
    cbn [forallb] in Hall. apply andb_true_iff in Hall as [H1 H2].
    cbn [List.map]. by rewrite He, IHe.
  - intros Hs. apply stripped_obj in Hs as [Hnd Hall].
    rewrite strip_object_distinct by exact Hnd. f_equal. unfold strip_props.
    clear Hnd. induction IH as [|[k w] props Hw _ IHp]; [reflexivity|].
    apply Forall_cons in Hall as [[Hk Hsw] Hall]. cbn [List.filter fst snd] in *.
    destruct (String.eqb_spec k "text") as [->|_]; [contradiction|].
    cbn [negb List.map fst snd]. by rewrite (Hw Hsw), (IHp Hall).
Qed.

(** The step leaves a normalized tree, whatever it is given: no ["text"]
    property, no [null] and no repeated property at any depth. *)
Theorem strip_stripped v : stripped (stripExtraNonComparableKeys v) = true.
Proof. apply strip_is_stripped. Qed.

(** A tree without a [__proto__] property that is normalized already is
    returned as it is. *)
Theorem stripped_fixed v :
  proto_free v = true -> stripped v = true -> stripExtraNonComparableKeys v = v.
Proof. intros _. apply stripped_is_fixed. Qed.

(** On a tree without a [__proto__] property, stripping twice is stripping
    once. *)
Theorem strip_idempotent v :
  proto_free v = true ->
  stripExtraNonComparableKeys (stripExtraNonComparableKeys v)
  = stripExtraNonComparableKeys v.
Proof. intros _. apply stripped_is_fixed, strip_is_stripped. Qed.

(** An object of a tree without a [__proto__] property, whose properties
    have distinct names, comes back with the same properties in the same
    order, but for ["text"], each value stripped in turn. *)
Theorem strip_object_shape props :
  proto_free (JObj props) = true ->
  NoDup (List.map fst props) ->
  stripExtraNonComparableKeys (JObj props) = JObj (strip_props props).
Proof. intros _. apply strip_object_distinct. Qed.

End StripNormal.

(** ** Texts after the line-ending pass *)

Section MoreLineEndings.
Import Str.

Lemma starts_with_CRLF c d s :
  starts_with CRLF (String c (String d s)) = Ascii.eqb CR c && Ascii.eqb LF d.
Proof. unfold CRLF. cbn [starts_with]. by rewrite andb_true_r. Qed.

Lemma replace_crlf_length s :
  String.length (replace_crlf s) <= String.length s
  /\ (contains CRLF s = true -> String.length (replace_crlf s) < String.length s)
  /\ (contains CRLF s = false -> replace_crlf s = s).
Proof.
  cut ((String.length (replace_crlf s) <= String.length s
        /\ (contains CRLF s = true -> String.length (replace_crlf s) < String.length s)
        /\ (contains CRLF s = false -> replace_crlf s = s))
       /\ forall c,
         String.length (replace_crlf (String c s)) <= S (String.length s)
         /\ (contains CRLF (String c s) = true ->
             String.length (replace_crlf (String c s)) < S (String.length s))
         /\ (contains CRLF (String c s) = false -> replace_crlf (String c s) = String c s)).
  { tauto. }
  induction s as [|d s [(L1 & S1 & F1) IH2]].
  - split.
    { split; [cbn; lia|]. split; [discriminate | reflexivity]. }
    intros c. split; [cbn; lia|]. split; [|reflexivity].
    unfold CRLF. cbn [contains starts_with orb]. rewrite andb_false_r. discriminate.
  - split; [apply IH2|]. intros c.
    rewrite replace_crlf_cons2, (contains_cons CRLF), starts_with_CRLF.
    destruct (IH2 d) as (L2 & S2 & F2).
    destruct (Ascii.eqb c CR) eqn:Hc; cbn [andb].
    + apply Ascii.eqb_eq in Hc as ->. rewrite Ascii.eqb_refl. cbn [andb].
      rewrite (Ascii.eqb_sym LF d). destruct (Ascii.eqb d LF) eqn:Hd; cbn [orb].
      * cbn [String.length]. split; [lia|]. split; [lia | discriminate].
      * cbn [String.length]. split; [lia|].
        split; [intros H; apply S2 in H; lia | intros H; by rewrite (F2 H)].
    + rewrite (Ascii.eqb_sym CR c), Hc. cbn [andb orb String.length].
      split; [lia|].
      split; [intros H; apply S2 in H; lia | intros H; by rewrite (F2 H)].
Qed.

(** The pass never lengthens a text, and it returns a text as it is exactly
    when the text has no CR LF. *)
Theorem replace_crlf_fixed (content : string) :
  String.length (replace_crlf content) <= String.length content
  /\ (replace_crlf content = content <-> ~ Contains content CRLF).
Proof.
  destruct (replace_crlf_length content) as (Hle & Hlt & Hfix).
  split; [exact Hle|]. rewrite <- contains_spec.
  destruct (contains CRLF content) eqn:Hc.
  - split; [|intros H; by destruct H].
    intros Heq. specialize (Hlt eq_refl). rewrite Heq in Hlt. lia.
  - split; [discriminate | intros _; by apply Hfix].
Qed.

End MoreLineEndings.

(** ** Trimmed texts *)

Section Trimming.
Import Str.

Lemma append_assoc (a b c : string) : (a +:+ b) +:+ c = a +:+ (b +:+ c).
Proof.
  induction a as [|x a IH]; [reflexivity|].
  change (String x ((a +:+ b) +:+ c) = String x (a +:+ (b +:+ c))). by rewrite IH.
Qed.

Lemma length_append (a b : string) :
  String.length (a +:+ b) = String.length a + String.length b.
Proof.
  induction a as [|x a IH]; [reflexivity|].
  change (S (String.length (a +:+ b)) = S (String.length a + String.length b)).
  by rewrite IH.
Qed.

Lemma rev_onto_spec s acc : rev_onto s acc = reverse s +:+ acc.
Proof.
  unfold reverse. revert acc. induction s as [|c s IH]; intros acc; [reflexivity|].
  cbn [rev_onto]. rewrite IH, (IH (String c EmptyString)), append_assoc. reflexivity.
Qed.

Lemma reverse_cons c s : reverse (String c s) = reverse s +:+ String c EmptyString.
Proof. unfold reverse at 1. cbn [rev_onto]. apply rev_onto_spec. Qed.

Lemma reverse_append a b : reverse (a +:+ b) = reverse b +:+ reverse a.
Proof.
  induction a as [|x a IH].
  - change (reverse b = reverse b +:+ EmptyString). by rewrite append_empty_r.
  - change (reverse (String x (a +:+ b)) = reverse b +:+ reverse (String x a)).
    by rewrite !reverse_cons, IH, append_assoc.
Qed.

Lemma reverse_involutive s : reverse (reverse s) = s.
Proof.
  induction s as [|c s IH]; [reflexivity|].
  rewrite reverse_cons, reverse_append, IH. reflexivity.
Qed.

Lemma length_reverse s : String.length (reverse s) = String.length s.
Proof.
  induction s as [|c s IH]; [reflexivity|].
  rewrite reverse_cons, length_append, IH. cbn. lia.
Qed.

Lemma strip_prefix_spec p s r : strip_prefix p s = Some r <-> s = p +:+ r.
Proof.
  revert s. induction p as [|a p IH]; intros s; cbn [strip_prefix].
  - split; [by intros [= ->] | by intros ->].
  - destruct s as [|b s].
    + split; [discriminate | intros H; discriminate H].
    + change (String a p +:+ r) with (String a (p +:+ r)).
      destruct (Ascii.eqb_spec a b) as [->|Hne].
      * rewrite IH. split; [by intros -> | by intros [= ->]].
      * split; [discriminate | intros [= ? ?]; congruence].
Qed.

Lemma after_first_Some seqs s r :
  after_first seqs s = Some r -> exists w, w ∈ seqs /\ s = w +:+ r.
Proof.
  induction seqs as [|w seqs IH]; [discriminate|]. cbn [after_first].
  destruct (strip_prefix w s) as [r'|] eqn:Hw.
  - intros [= ->]. exists w. split; [apply list_elem_of_here | by apply strip_prefix_spec].
  - intros H. destruct (IH H) as (w' & Hin & ->). exists w'.
    split; [by apply list_elem_of_further | reflexivity].
Qed.

Lemma after_first_None seqs s :
  after_first seqs s = None -> forall w, w ∈ seqs -> forall r, s <> w +:+ r.
Proof.
  induction seqs as [|w seqs IH]; intros H w' Hin r.
  - by apply elem_of_nil in Hin.
  - cbn [after_first] in H. destruct (strip_prefix w s) as [r'|] eqn:Hw; [discriminate|].
    apply elem_of_cons in Hin as [->|Hin]; [|by apply IH].
    intros Heq. apply strip_prefix_spec in Heq. congruence.
Qed.

(** With fuel for its length, a text loses a run of the sequences at its
    start and is left starting with none of them. *)
Lemma drop_leading_spec seqs fuel s :
  Forall (fun w => w <> EmptyString) seqs ->
  String.length s <= fuel ->
  exists pre,
    s = pre +:+ drop_leading seqs fuel s
    /\ Blank seqs pre
    /\ forall w, w ∈ seqs -> forall r, drop_leading seqs fuel s <> w +:+ r.
Proof.
  intros Hne. revert s. induction fuel as [|fuel IH]; intros s Hlen.
  - destruct s; [|cbn in Hlen; lia]. exists EmptyString.
    split; [reflexivity|]. split; [constructor|]. intros w Hw r Heq.
    eapply Forall_forall in Hne; [|exact Hw]. destruct w; [done | discriminate Heq].
  - cbn [drop_leading]. destruct (after_first seqs s) as [r|] eqn:Ha.
    + apply after_first_Some in Ha as (w & Hw & ->).
      assert (String.length r <= fuel) as Hr.
      { rewrite length_append in Hlen.
        eapply Forall_forall in Hne; [|exact Hw]. destruct w; [done|]. cbn in Hlen. lia. }
      destruct (IH r Hr) as (pre & Hpre & Hblank & Hno).
      exists (w +:+ pre). split; [|split; [by constructor | exact Hno]].
      rewrite append_assoc. by rewrite <- Hpre.
    + exists EmptyString. split; [reflexivity|]. split; [constructor|].
      by apply after_first_None.
Qed.

Lemma Blank_append seqs a b : Blank seqs a -> Blank seqs b -> Blank seqs (a +:+ b).
Proof.
  induction 1 as [|w s Hw _ IH]; intros Hb; [exact Hb|].
  rewrite append_assoc. constructor; [exact Hw | by apply IH].
Qed.

Lemma Blank_reverse seqs s :
  Blank (List.map reverse seqs) s -> Blank seqs (reverse s).
Proof.
  induction 1 as [|w s Hw _ IH]; [constructor|].
  rewrite reverse_append. apply Blank_append; [exact IH|].
  apply list_elem_of_In, in_map_iff in Hw as (w0 & <- & Hin).
  rewrite reverse_involutive. rewrite <- (append_empty_r w0).
  constructor; [by apply list_elem_of_In | constructor].
Qed.

Lemma white_space_nonempty : Forall (fun w => w <> EmptyString) white_space.
Proof. repeat constructor; discriminate. Qed.

Lemma white_space_reverse_nonempty :
  Forall (fun w => w <> EmptyString) (List.map reverse white_space).
Proof. repeat constructor; discriminate. Qed.

Lemma trimStart_spec s :
  exists pre, s = pre +:+ trimStart s /\ Blank white_space pre
              /\ forall w, w ∈ white_space -> forall r, trimStart s <> w +:+ r.
Proof. apply drop_leading_spec; [apply white_space_nonempty | reflexivity]. Qed.

Lemma trimEnd_spec s :
  exists post, s = trimEnd s +:+ post /\ Blank white_space post
               /\ forall w, w ∈ white_space -> forall pre, trimEnd s <> pre +:+ w.
Proof.
  destruct (drop_leading_spec (List.map reverse white_space) (String.length s) (reverse s)
              white_space_reverse_nonempty) as (pre & Hs & Hblank & Hno).
  { by rewrite length_reverse. }
  exists (reverse pre). unfold trimEnd. split; [|split].
  - rewrite <- reverse_append, <- Hs. by rewrite reverse_involutive.
  - by apply Blank_reverse.
  - intros w Hw p Heq. apply (f_equal reverse) in Heq.
    rewrite reverse_involutive, reverse_append in Heq.
    eapply Hno; [|exact Heq]. apply list_elem_of_In, in_map. by apply list_elem_of_In.
Qed.

(** [trim] takes the white space off the two ends of a text, and nothing
    else. *)
Lemma trim_Trimmed s : Trimmed s (trim s).
Proof.
  destruct (trimStart_spec s) as (pre & Hs & Hpre & Hlead).
  destruct (trimEnd_spec (trimStart s)) as (post & Ht & Hpost & Htrail).
  fold (trim s) in Ht, Htrail. split.
  - exists pre, post. split; [|by split]. by rewrite <- Ht.
  - intros w Hw. split; [|by apply Htrail].
    intros r Heq. apply (Hlead w Hw (r +:+ post)).
    rewrite Ht, Heq. apply append_assoc.
Qed.

Example trim_version :
  trim (of_bytes [239; 187; 191; 32] +:+ "3.6.5" +:+ of_bytes [13; 10; 194; 160]) = "3.6.5".
Proof. vm_compute. reflexivity. Qed.

Example trim_inner : trim " a b " = "a b".
Proof. vm_compute. reflexivity. Qed.

End Trimming.

(** ** The driver on any host, continued *)

Section MoreProperties.
Context {host : Host} {loaded : Loaded}.

(** ** Resolution over a longer list *)

(** Resolution over a list in two parts is resolution over the first part
    and, only when that finds nothing, over the second: candidates added at
    the end never change a binding that was found, nor what the first part
    threw. *)
Theorem getPythonBinAndVersion_app (bins1 bins2 : list string) (versionSpec : string) :
  getPythonBinAndVersion (bins1 ++ bins2) versionSpec =
  match getPythonBinAndVersion bins1 versionSpec with
  | Ok (Some binding) => Ok (Some binding)
  | Ok None => getPythonBinAndVersion bins2 versionSpec
  | Throw e => Throw e
  end.
Proof.
  induction bins1 as [|bin bins1 IH]; [reflexivity|].
  rewrite <- app_comm_cons, !getPythonBinAndVersion_cons.
  destruct (qualifies versionSpec bin) as [[]|e]; cbn [res_bind];
    [reflexivity | exact IH | reflexivity].
Qed.

(** ** What resolution comes to *)

Lemma passed_over_all versionSpec bins :
  Forall (fun b => qualifies versionSpec b = Ok false) bins ->
  Forall (passed_over versionSpec) bins.
Proof.
  intros H. eapply Forall_impl; [exact H|]. intros b. apply qualifies_false.
Qed.

(** Resolution goes through the candidates in order and passes over those
    whose probe failed or whose version, a text [semver] parses, is outside
    the constraint.  It ends at the first candidate that is not passed
    over: with that candidate and its version, the output of its probe
    without the white space at its ends, when the version satisfies the
    constraint; with what [semver] throws, when it throws on that version.
    It ends with nothing when every candidate is passed over. *)
Theorem getPythonBinAndVersion_outcome (potentialBins : list string) (versionSpec : string) :
  (forall bin, Str.Trimmed (stdout (spawnSync bin probe_args)) (reported_version bin))
  /\ match getPythonBinAndVersion potentialBins versionSpec with
     | Ok (Some (bin, version)) =>
         exists skipped rest,
           potentialBins = skipped ++ bin :: rest
           /\ Forall (passed_over versionSpec) skipped
           /\ status (spawnSync bin probe_args) = Some 0%Z
           /\ version = reported_version bin
           /\ semver_satisfies version versionSpec = Ok true
     | Ok None => Forall (passed_over versionSpec) potentialBins
     | Throw e =>
         exists skipped bin rest,
           potentialBins = skipped ++ bin :: rest
           /\ Forall (passed_over versionSpec) skipped
           /\ status (spawnSync bin probe_args) = Some 0%Z
           /\ semver_satisfies (reported_version bin) versionSpec = Throw e
     end.
Proof.
  split; [intros bin; apply trim_Trimmed|].
  destruct (getPythonBinAndVersion potentialBins versionSpec) as [[[bin version]|]|e] eqn:E.
  - apply getPythonBinAndVersion_Some in E as (skipped & rest & -> & Hsk & Hq & ->).
    apply qualifies_true in Hq as [Hst Hsat].
    exists skipped, rest. repeat split; [by apply passed_over_all | assumption..].
  - by apply passed_over_all, getPythonBinAndVersion_None.
  - apply getPythonBinAndVersion_Throw in E as (skipped & bin & rest & -> & Hsk & Hq).
    apply qualifies_Throw in Hq as [Hst Hthrow].
    exists skipped, bin, rest. repeat split; [by apply passed_over_all | assumption..].
Qed.

(** ** The interpreter set *)

Lemma resolved_track_sound bin version :
  (bin, version) ∈ resolved_tracks ->
  status (spawnSync bin probe_args) = Some 0%Z
  /\ version = reported_version bin
  /\ (semver_satisfies version "2.*" = Ok true \/ semver_satisfies version "3.*" = Ok true)
  /\ bin ∈ ["python2.7"; "python2"; "python3.6"; "python3"; "python"].
Proof.
  unfold resolved_tracks. intros Hin.
  assert (python2BinAndVersion = Some (bin, version)
          \/ python3BinAndVersion = Some (bin, version)) as [H|H].
  { destruct python2BinAndVersion as [b2|], python3BinAndVersion as [b3|];
      cbn [omap list_omap id] in Hin;
      repeat (apply elem_of_cons in Hin as [->|Hin]); try (by apply elem_of_nil in Hin);
      auto. }
  - pose proof python2_resolved as R. rewrite H in R.
    pose proof (getPythonBinAndVersion_elem _ _ _ _ R) as (Hmem & Hsat & Hv).
    apply getPythonBinAndVersion_Some in R as (sk & rest & _ & _ & Hq & _).
    apply qualifies_true in Hq as [Hst _]. subst version.
    split; [exact Hst|]. split; [reflexivity|]. split; [by left|].
    repeat (apply elem_of_cons in Hmem as [->|Hmem]); try (by apply elem_of_nil in Hmem);
      set_solver.
  - pose proof python3_resolved as R. rewrite H in R.
    pose proof (getPythonBinAndVersion_elem _ _ _ _ R) as (Hmem & Hsat & Hv).
    apply getPythonBinAndVersion_Some in R as (sk & rest & _ & _ & Hq & _).
    apply qualifies_true in Hq as [Hst _]. subst version.
    split; [exact Hst|]. split; [reflexivity|]. split; [by right|].
    repeat (apply elem_of_cons in Hmem as [->|Hmem]); try (by apply elem_of_nil in Hmem);
      set_solver.
Qed.

Lemma resolved_tracks_length : length resolved_tracks <= 2.
Proof.
  unfold resolved_tracks.
  destruct python2BinAndVersion, python3BinAndVersion; cbn; lia.
Qed.

Lemma selected_interpreters_char (versionRange : string) :
  length (selected_interpreters versionRange) <= 2
  /\ forall bin,
       bin ∈ selected_interpreters versionRange <->
       exists version,
         (bin, version) ∈ resolved_tracks
         /\ semver_satisfies version versionRange = Ok true.
Proof.
  rewrite selected_interpreters_filter. split.
  - rewrite length_map. etransitivity; [apply filter_length_le | apply resolved_tracks_length].
  - intros bin. rewrite list_elem_of_In, in_map_iff. split.
    + intros ([b v] & <- & Hin). apply filter_In in Hin as [Hin Hsat].
      exists v. split; [by apply list_elem_of_In | by apply in_range_true].
    + intros (version & Hin & Hsat). exists (bin, version). split; [reflexivity|].
      apply filter_In. split; [by apply list_elem_of_In | by apply in_range_true].
Qed.


(** The builder selects at most two interpreters: exactly the executables
    of the resolved tracks whose version satisfies the range. *)
Theorem selected_interpreters_sound (versionRange : string) :
  length (selected_interpreters versionRange) <= 2
  /\ forall bin,
       bin ∈ selected_interpreters versionRange <->
       exists version,
         (bin, version) ∈ resolved_tracks
         /\ semver_satisfies version versionRange = Ok true.
Proof. apply selected_interpreters_char. Qed.

(** Every selected interpreter is one of the five candidate names, its probe
    exited with status zero, and the version it reported satisfies both the
    range of the call and the range of one of the two tracks. *)
Theorem selected_interpreter_probed (versionRange bin : string) :
  bin ∈ selected_interpreters versionRange ->
  bin ∈ ["python2.7"; "python2"; "python3.6"; "python3"; "python"]
  /\ status (spawnSync bin probe_args) = Some 0%Z
  /\ semver_satisfies (reported_version bin) versionRange = Ok true
  /\ (semver_satisfies (reported_version bin) "2.*" = Ok true
      \/ semver_satisfies (reported_version bin) "3.*" = Ok true).
Proof.
  intros Hin. apply selected_interpreters_char in Hin as (version & Htrack & Hsat).
  apply resolved_track_sound in Htrack as (Hst & -> & Hrange & Hname).
  by repeat split.
Qed.

(** ** Registration only adds *)

(** Whatever [run_spec] is called with and however it ends, the objects,
    the tests and the file-system events that were there before are still
    there, in place, with new ones after them at most. *)
Theorem run_spec_monotone dirname parsers versionRange options (st : State) :
  grows st (fst (run_spec dirname parsers versionRange options st)).
Proof.
  unfold run_spec. cbv zeta. destruct parsers as [[|parser0 alternates]|];
    try apply grows_refl.
  apply monotone_bind; [apply monotone_log_fs|]. intros _.
  apply monotone_bind; [apply monotone_call|]. intros entries.
  apply monotone_forEach. intros filename. apply monotone_for_filename.
Qed.

(** ** When a run completes *)

Lemma forEach_snd_iff {A} (f : A -> M unit) (P : A -> Prop) xs st :
  (forall x s, snd (f x s) = Ok tt <-> P x) ->
  snd (forEach xs f st) = Ok tt <-> Forall P xs.
Proof.
  intros Hf. revert st. induction xs as [|x xs IH]; intros st; cbn [forEach].
  - split; [constructor | reflexivity].
  - unfold bind. rewrite Forall_cons, <- (Hf x st).
    destruct (f x st) as [s1 [[]|e]]; cbn [snd].
    + rewrite IH. tauto.
    + split; [discriminate | intros [[=] _]].
Qed.

Lemma for_pythonBin_snd options parser0 alternates filename path source bin st :
  snd (for_pythonBin options parser0 alternates filename path source bin st) = Ok tt
  <-> pair_succeeds options parser0 path source bin.
Proof.
  split.
  - intros Hok.
    pose proof (surjective_pairing
      (for_pythonBin options parser0 alternates filename path source bin st)) as Hrun.
    rewrite Hok in Hrun. apply for_pythonBin_Ok in Hrun
      as (output & rt & Hout & _ & _ & _ & Hrt).
    split; [by exists output|]. intros Hflag. rewrite Hflag in Hrt.
    destruct Hrt as (ast & nopts & astM & Hp & Hn & Hm & _). by exists ast, nopts, astM.
  - intros [[output Hout] Hflag].
    unfold for_pythonBin, bind at 1, new_object.
    unfold bind at 1, deref. cbn [store tests fs_log].
    rewrite list_lookup_total_middle by reflexivity.
    unfold bind at 1, call. rewrite Hout.
    unfold bind at 1, test at 1. cbn [store tests fs_log].
    unfold bind at 1. rewrite forEach_test. cbn [store tests fs_log].
    destruct (env_truthy AST_COMPARE); [|reflexivity].
    destruct (Hflag eq_refl) as (ast & nopts & astM & Hp & Hn & Hm).
    unfold ast_compare, bind, deref, call. cbn [store tests fs_log].
    rewrite list_lookup_total_middle by reflexivity.
    rewrite Hp, Hn, Hm. by destruct (reparse _ _ _ _).
Qed.

Lemma for_fixture_snd options parser0 alternates dirname versionRange filename st :
  snd (for_fixture options parser0 alternates dirname versionRange filename st) = Ok tt
  <-> exists content,
        readFileSync (dirname +:+ "/" +:+ filename) = Ok content
        /\ forall pythonBin,
             pythonBin ∈ selected_interpreters versionRange ->
             pair_succeeds options parser0 (dirname +:+ "/" +:+ filename)
                           (Str.replace_crlf content) pythonBin.
Proof.
  unfold for_fixture. cbv zeta. unfold bind at 1, read, bind at 1, log_fs, call.
  destruct (readFileSync (dirname +:+ "/" +:+ filename)) as [content|e].
  - unfold bind at 1. rewrite getPythonBinaries_eq.
    rewrite (forEach_snd_iff _
               (pair_succeeds options parser0 (dirname +:+ "/" +:+ filename)
                              (Str.replace_crlf content)))
      by (intros; apply for_pythonBin_snd).
    rewrite Forall_forall. split.
    + intros H. by exists content.
    + intros (content' & [= <-] & H). exact H.
  - cbn [snd]. split; [discriminate | intros (content & [=] & _)].
Qed.

Lemma is_fixture_returns dirname filename :
  (exists verdict, is_fixture dirname filename = Ok verdict) <->
  (extname filename <> ".snap" ->
   exists isFile, lstat_isFile (dirname +:+ "/" +:+ filename) = Ok isFile).
Proof.
  unfold is_fixture.
  destruct (String.eqb_spec (extname filename) ".snap") as [Hsnap|Hsnap]; cbn [negb].
  { split; [intros _ Hne; contradiction | intros _; by eexists]. }
  destruct (lstat_isFile _) as [isFile|e]; cbn [res_map res_bind].
  - split; [intros _ _; by eexists | intros _; by eexists].
  - split; [intros [verdict [=]] | intros H; destruct (H Hsnap) as [isFile [=]]].
Qed.

(** Registration completes exactly when the directory can be listed, every
    entry that has to be looked up can be, every fixture can be read and,
    for every fixture and every selected interpreter, the calls made
    outside the test bodies return.  It does not depend on the state, on the
    alternate parsers or on any verdict. *)
Theorem run_spec_completes_iff dirname parser0 alternates versionRange options st :
  snd (run_spec dirname (Some (parser0 :: alternates)) versionRange options st) = Ok tt
  <-> exists entries,
        readdirSync dirname = Ok entries
        /\ forall filename,
             filename ∈ entries ->
             (extname filename <> ".snap" ->
              exists isFile, lstat_isFile (dirname +:+ "/" +:+ filename) = Ok isFile)
             /\ (is_fixture dirname filename = Ok true ->
                 exists content,
                   readFileSync (dirname +:+ "/" +:+ filename) = Ok content
                   /\ forall pythonBin,
                        pythonBin ∈ selected_interpreters versionRange ->
                        pair_succeeds (with_defaults options) parser0
                                      (dirname +:+ "/" +:+ filename)
                                      (Str.replace_crlf content) pythonBin).
Proof.
  unfold run_spec. cbv zeta. unfold bind at 1, log_fs, bind at 1, call.
  destruct (readdirSync dirname) as [entries|e].
  - rewrite (forEach_snd_iff _ (fun filename =>
               (extname filename <> ".snap" ->
                exists isFile, lstat_isFile (dirname +:+ "/" +:+ filename) = Ok isFile)
               /\ (is_fixture dirname filename = Ok true ->
                   exists content,
                     readFileSync (dirname +:+ "/" +:+ filename) = Ok content
                     /\ forall pythonBin,
                          pythonBin ∈ selected_interpreters versionRange ->
                          pair_succeeds (with_defaults options) parser0
                                        (dirname +:+ "/" +:+ filename)
                                        (Str.replace_crlf content) pythonBin))).
    + rewrite Forall_forall. split.
      * intros H. by exists entries.
      * intros (entries' & [= <-] & H). exact H.
    + intros filename s. rewrite <- is_fixture_returns.
      unfold for_filename, bind, call.
      destruct (is_fixture dirname filename) as [[]|e].
      * rewrite for_fixture_snd. fold (with_defaults options). split.
        -- intros H. split; [by eexists | intros _; exact H].
        -- intros [_ H]. by apply H.
      * cbn. split; [intros _; split; [by eexists | discriminate] | reflexivity].
      * cbn [snd]. split; [discriminate | intros [[verdict [=]] _]].
  - cbn [snd]. split; [discriminate | intros (entries & [=] & _)].
Qed.


(** ** What a completed run has added *)

Lemma forEach_Ok_tests_length {A} (f : A -> M unit) (n : nat) xs st st' :
  (forall x s s', f x s = (s', Ok tt) -> length (tests s') = length (tests s) + n) ->
  forEach xs f st = (st', Ok tt) ->
  length (tests st') = length (tests st) + length xs * n.
Proof.
  intros Hf. revert st. induction xs as [|x xs IH]; intros st; cbn [forEach].
  - intros [= <-]. cbn. lia.
  - unfold bind. destruct (f x st) as [s1 [[]|e]] eqn:Hx; [|discriminate].
    intros Hrest. rewrite (IH _ Hrest), (Hf _ _ _ Hx). cbn [length]. lia.
Qed.

Lemma forEach_Ok_store {A} (f : A -> M unit) (added : A -> Store) xs st st' :
  (forall x s s', f x s = (s', Ok tt) -> store s' = store s ++ added x) ->
  forEach xs f st = (st', Ok tt) ->
  store st' = store st ++ concat (List.map added xs).
Proof.
  intros Hf. revert st. induction xs as [|x xs IH]; intros st; cbn [forEach].
  - intros [= <-]. cbn. by rewrite app_nil_r.
  - unfold bind. destruct (f x st) as [s1 [[]|e]] eqn:Hx; [|discriminate].
    intros Hrest. rewrite (IH _ Hrest), (Hf _ _ _ Hx). cbn [List.map concat].
    by rewrite app_assoc.
Qed.

Lemma for_pythonBin_added options parser0 alternates filename path source bin s s' :
  for_pythonBin options parser0 alternates filename path source bin s = (s', Ok tt) ->
  length (tests s') = length (tests s) + tests_per_pair alternates
  /\ store s' = store s ++ [merged_options options parser0 bin].
Proof.
  intros H. apply for_pythonBin_Ok in H as (output & rt & _ & Hstore & _ & Htests & Hrt).
  split; [|exact Hstore]. rewrite Htests, !length_app. unfold tests_of_pair, tests_per_pair.
  cbn [length]. rewrite length_map.
  destruct (env_truthy AST_COMPARE).
  - destruct Hrt as (ast & nopts & astM & _ & _ & _ & ->). cbn [length]. lia.
  - subst rt. cbn [length]. lia.
Qed.

Lemma for_fixture_added options parser0 alternates dirname versionRange filename s s' :
  for_fixture options parser0 alternates dirname versionRange filename s = (s', Ok tt) ->
  length (tests s')
  = length (tests s)
    + (tests_per_builder versionRange
       + length (selected_interpreters versionRange) * tests_per_pair alternates)
  /\ store s'
     = store s ++ List.map (merged_options options parser0)
                           (selected_interpreters versionRange).
Proof.
  unfold for_fixture. cbv zeta. unfold bind at 1, read, bind at 1, log_fs, call.
  destruct (readFileSync _) as [content|e]; [|discriminate].
  unfold bind at 1. rewrite getPythonBinaries_eq. intros Hloop. split.
  - eapply forEach_Ok_tests_length in Hloop as ->.
    2:{ intros bin s1 s1' H1. by apply for_pythonBin_added in H1 as [-> _]. }
    cbn [tests]. rewrite length_app. unfold tests_per_builder. cbn [length].
    destruct (String.eqb_spec versionRange "*") as [->|Hne].
    + rewrite bool_decide_eq_true_2 by reflexivity. cbn [length]. lia.
    + rewrite bool_decide_eq_false_2 by assumption. cbn [length]. lia.
  - eapply (forEach_Ok_store _ (fun bin => [merged_options options parser0 bin]))
      in Hloop as ->.
    2:{ intros bin s1 s1' H1. by apply for_pythonBin_added in H1 as [_ ->]. }
    cbn [store]. f_equal.
    induction (selected_interpreters versionRange) as [|b bs IH]; [reflexivity|].
    cbn [List.map concat app]. by rewrite IH.
Qed.

(** A completed run has added, for every fixture, the tests of the
    interpreter set builder and, for every selected interpreter, one option
    object (the reference set) and the tests of that pair. *)
Theorem run_spec_added dirname parser0 alternates versionRange options entries st st' :
  readdirSync dirname = Ok entries ->
  run_spec dirname (Some (parser0 :: alternates)) versionRange options st = (st', Ok tt) ->
  let fixtures := List.filter (fixture dirname) entries in
  let pythonBinaries := selected_interpreters versionRange in
  length (tests st')
  = length (tests st)
    + length fixtures
      * (tests_per_builder versionRange
         + length pythonBinaries * tests_per_pair alternates)
  /\ store st'
     = store st
       ++ concat (List.map (fun _ => List.map (merged_options (with_defaults options) parser0)
                                              pythonBinaries)
                           fixtures).
Proof.
  intros Hdir Hrun.
  apply (run_spec_Ok_loop _ _ _ _ _ _ _ _ Hdir) in Hrun as [_ Hloop].
  split.
  - eapply forEach_Ok_tests_length in Hloop as ->; [reflexivity|].
    intros filename s s' H. by apply for_fixture_added in H as [-> _].
  - eapply (forEach_Ok_store _ (fun _ => List.map (merged_options (with_defaults options)
                                                                  parser0)
                                                  (selected_interpreters versionRange)))
      in Hloop as ->; [reflexivity|].
    intros filename s s' H. by apply for_fixture_added in H as [_ ->].
Qed.

(** ** A formatted text that does not parse *)

(** With the flag set, in a completed run, a fixture whose formatted text
    could not be parsed and massaged has a round-trip test that fails, on
    every store, at its first assertion, whatever the original tree. *)
Theorem reparse_failure_fails
    dirname parser0 alternates versionRange options st st'
    entries filename content pythonBin normalizedOptions :
  env_truthy AST_COMPARE = true ->
  run_spec dirname (Some (parser0 :: alternates)) versionRange options st = (st', Ok tt) ->
  readdirSync dirname = Ok entries ->
  filename ∈ entries ->
  is_fixture dirname filename = Ok true ->
  readFileSync (dirname +:+ "/" +:+ filename) = Ok content ->
  pythonBin ∈ selected_interpreters versionRange ->
  let path := dirname +:+ "/" +:+ filename in
  let source := Str.replace_crlf content in
  let merged := merged_options (with_defaults options) parser0 pythonBin in
  normalizeOptions merged = Ok normalizedOptions ->
  snd (reparse source path merged normalizedOptions) <> JNull ->
  exists round_trip,
    round_trip ∈ tests st'
    /\ test_name round_trip = path +:+ " parse"
    /\ forall h : Store,
         run_test round_trip h =
         (h, Throw (AssertionFailed
                      (ToBeNull (snd (reparse source path merged normalizedOptions))))).
Proof.
  intros Hflag Hrun Hdir Hin Hfix Hread Hbin path source merged Hnorm Hthrew.
  destruct (run_spec_Ok_round_trip _ _ _ _ _ _ _ _ _ _ _ Hflag Hrun Hdir Hin Hfix Hread Hbin)
    as (ast & nopts & astM & _ & Hn & _ & Htest).
  fold path source merged in Hn, Htest. rewrite Hnorm in Hn. injection Hn as <-.
  eexists. split; [exact Htest|]. split; [reflexivity|].
  intros h. unfold run_test, parse_fn, t_bind, expect. cbn [test_fn holds].
  destruct (snd (reparse source path merged normalizedOptions)); try reflexivity.
  contradiction.
Qed.

(** ** The assertions of the round trip *)



(** ** The verdicts of the builder's tests *)

(** The test that the set is not empty passes exactly when some resolved
    track has a version inside the range; the test that it has two members
    passes exactly when both tracks resolved to versions inside the range. *)
Theorem builder_verdicts (versionRange : string) (h : Store) :
  (snd (run_test (atLeastOne_test (selected_interpreters versionRange)) h) = Ok tt
   <-> exists bin version,
         (bin, version) ∈ resolved_tracks
         /\ semver_satisfies version versionRange = Ok true)
  /\ (snd (run_test (both_test (selected_interpreters versionRange)) h) = Ok tt
      <-> exists bin2 version2 bin3 version3,
            python2BinAndVersion = Some (bin2, version2)
            /\ python3BinAndVersion = Some (bin3, version3)
            /\ semver_satisfies version2 versionRange = Ok true
            /\ semver_satisfies version3 versionRange = Ok true).
Proof.
  unfold run_test, atLeastOne_test, both_test, expect. cbn [test_fn snd holds].
  split.
  - destruct (selected_interpreters_char versionRange) as [_ Hmem].
    destruct (selected_interpreters versionRange) as [|bin bins]; cbn [length Nat.ltb Nat.leb].
    + split; [discriminate|]. intros (bin & version & H).
      assert (bin ∈ @nil string) as Hin by (apply Hmem; by exists version).
      by apply elem_of_nil in Hin.
    + split; [|reflexivity]. intros _.
      destruct (proj1 (Hmem bin) (list_elem_of_here _ _)) as (version & H).
      by exists bin, version.
  - rewrite selected_interpreters_filter. unfold resolved_tracks.
    destruct python2BinAndVersion as [[b2 v2]|], python3BinAndVersion as [[b3 v3]|];
      cbn [omap list_omap id List.filter snd];
      repeat match goal with
        | |- context [in_range ?v versionRange] =>
            destruct (in_range v versionRange) eqn:?
        end; cbn [List.map length Nat.eqb];
      (split;
        [ intros H; try discriminate H; eexists _, _, _, _;
          repeat split; by apply in_range_true
        | intros (x2 & y2 & x3 & y3 & H1 & H2 & H3 & H4);
          try discriminate; simplify_eq;
          apply in_range_true in H3; apply in_range_true in H4; congruence ]).
Qed.

(** ** The options the formatter is given *)



End MoreProperties.

(** * The properties on the sample host

    From here on the host is [Sample.host]: a listing with two fixtures
    among six entries, [python2] and [python3] installed, the flag set,
    and the parsers ["python"] and ["python_alt"]. *)

#[local] Existing Instance Sample.host.
#[local] Existing Instance Sample.loaded.

Lemma sample_run_completes : Sample.run = (fst Sample.run, Ok tt).
Proof.
  rewrite (surjective_pairing Sample.run) at 1.
  apply (f_equal (pair (fst Sample.run))). vm_compute. reflexivity.
Qed.

Lemma sample_entry_a :
  "a.py" ∈ ["a.py"; ".hidden"; "results.snap"; "jsfmt.spec.js"; "sub"; "b.py"].
Proof. apply list_elem_of_here. Qed.

Lemma sample_python3_selected : "python3" ∈ selected_interpreters "*".
Proof.
  assert (selected_interpreters "*" = ["python2"; "python3"]) as ->
    by (vm_compute; reflexivity).
  apply list_elem_of_further, list_elem_of_here.
Qed.

Lemma sample_alternate : "python_alt" ∈ ["python_alt"].
Proof. apply list_elem_of_here. Qed.

(** On this host no version is inside both ["2.*"] and ["3.*"]. *)
Lemma sample_ranges_apart (v : string) :
  Sample.satisfies v "2.*" = Ok true -> Sample.satisfies v "3.*" <> Ok true.
Proof.
  unfold Sample.satisfies.
  change (Sample.known_range "2.*") with true. change (Sample.known_range "3.*") with true.
  cbn [negb orb]. destruct (String.eqb v EmptyString); [discriminate|].
  destruct (Sample.valid v); [|discriminate].
  change (String.eqb "2.*" "*") with false. change (String.eqb "3.*" "*") with false.
  cbn [orb]. intros H2 H3.
  assert (String.eqb "2.*" (Sample.major v +:+ ".*") = true) as E2 by congruence.
  assert (String.eqb "3.*" (Sample.major v +:+ ".*") = true) as E3 by congruence.
  apply String.eqb_eq in E2, E3. rewrite <- E2 in E3. discriminate E3.
Qed.

Example sample_fixtures :
  List.filter (fixture "tests/sample")
              ["a.py"; ".hidden"; "results.snap"; "jsfmt.spec.js"; "sub"; "b.py"]
  = ["a.py"; "b.py"].
Proof. vm_compute. reflexivity. Qed.

Example sample_tracks :
  python2BinAndVersion = Some ("python2", "2.7.15")
  /\ python3BinAndVersion = Some ("python3", "3.6.5")
  /\ selected_interpreters "3.*" = ["python3"].
Proof. vm_compute. repeat split. Qed.

(** A host with only [python], a Python 2: one track resolves. *)
Example sample_single_python :
  @selected_interpreters (Sample.host_with_python "2.7.15") Sample.loaded_with_python2 "*"
  = ["python"].
Proof. vm_compute. reflexivity. Qed.

(** C5 on the sample host. *)
Lemma C5_interpreter_set_witness :
  (semver_satisfies (reported_version "python") "2.*" = Ok true ->
   semver_satisfies (reported_version "python") "3.*" <> Ok true)
  /\ snd (getPythonBinaries "*" Sample.start) = Ok (buildSet_spec "*").
Proof.
  split.
  - intros _. vm_compute. discriminate.
  - apply (@C5_interpreter_set Sample.host Sample.loaded "*" Sample.start).
    intros _. vm_compute. discriminate.
Defined.

(** C7 on the sample host. *)
Lemma C7_fixture_enumeration_witness :
  readdirSync "tests/sample"
  = Ok ["a.py"; ".hidden"; "results.snap"; "jsfmt.spec.js"; "sub"; "b.py"]
  /\ fs_log (fst Sample.run)
     = [ReadDir "tests/sample"; ReadFile "tests/sample/a.py";
        ReadFile "tests/sample/b.py"].
Proof.
  split; [reflexivity|].
  pose proof (@C7_fixture_enumeration Sample.host Sample.loaded
                "tests/sample" "python" ["python_alt"] "*" None
                ["a.py"; ".hidden"; "results.snap"; "jsfmt.spec.js"; "sub"; "b.py"]
                eq_refl) as (_ & _ & _ & Hlog).
  rewrite (Hlog Sample.start (fst Sample.run) sample_run_completes).
  rewrite sample_fixtures. reflexivity.
Defined.

(** C2 on the sample host: the fixture [a.py], [python3], ["python_alt"]. *)
Lemma C2_alternate_parser_same_output_witness :
  (run_spec "tests/sample" (Some ["python"; "python_alt"]) "*" None Sample.start
   = (fst Sample.run, Ok tt)
   /\ readdirSync "tests/sample"
      = Ok ["a.py"; ".hidden"; "results.snap"; "jsfmt.spec.js"; "sub"; "b.py"]
   /\ "a.py" ∈ ["a.py"; ".hidden"; "results.snap"; "jsfmt.spec.js"; "sub"; "b.py"]
   /\ is_fixture "tests/sample" "a.py" = Ok true
   /\ readFileSync ("tests/sample" +:+ "/" +:+ "a.py") = Ok ("x = 1" +:+ Str.CRLF)
   /\ "python3" ∈ selected_interpreters "*"
   /\ "python_alt" ∈ ["python_alt"])
  /\ let path := "tests/sample" +:+ "/" +:+ "a.py" in
     let source := Str.replace_crlf ("x = 1" +:+ Str.CRLF) in
     let reference := merged_options (with_defaults None) "python" "python3" in
     let derived := <["parser" := JStr "python_alt"]> reference in
     exists (l : loc) output verification registered,
       store (fst Sample.run) !! l = Some reference
       /\ reference !! "parser" = Some (JStr "python")
       /\ prettyprint source path reference = Ok output
       /\ tests (fst Sample.run) = tests Sample.start ++ registered
       /\ verification ∈ tests (fst Sample.run)
       /\ test_name verification = "a.py" +:+ " - " +:+ "python_alt" +:+ "-verify"
       /\ same_but_parser derived reference
       /\ derived !! "parser" = Some (JStr "python_alt")
       /\ (forall earlier : list Test,
             (forall t, t ∈ earlier -> t ∈ registered) ->
             exists current,
               run_tests earlier (store (fst Sample.run)) !! l = Some current
               /\ same_but_parser current reference)
       /\ forall (h : Store) current,
            h !! l = Some current ->
            same_but_parser current reference ->
            run_test verification h =
              (<[l := derived]> h,
               match prettyprint source path derived with
               | Ok verifyOutput => check_all [ToEqualString output verifyOutput]
               | Throw e => Throw (Thrown e)
               end)
            /\ (snd (run_test verification h) = Ok tt
                <-> prettyprint source path derived = Ok output).
Proof.
  split.
  - split; [exact sample_run_completes|]. split; [reflexivity|].
    split; [exact sample_entry_a|]. split; [reflexivity|]. split; [reflexivity|].
    split; [exact sample_python3_selected | exact sample_alternate].
  - exact (@C2_alternate_parser_same_output Sample.host Sample.loaded
             "tests/sample" "python" ["python_alt"] "*" None Sample.start (fst Sample.run)
             ["a.py"; ".hidden"; "results.snap"; "jsfmt.spec.js"; "sub"; "b.py"]
             "a.py" ("x = 1" +:+ Str.CRLF) "python3" "python_alt"
             sample_run_completes eq_refl sample_entry_a eq_refl eq_refl
             sample_python3_selected sample_alternate).
Defined.

(** C10 on the sample host: the same fixture, interpreter and parser. *)
Lemma C10_reference_options_mutated_witness :
  (run_spec "tests/sample" (Some ["python"; "python_alt"]) "*" None Sample.start
   = (fst Sample.run, Ok tt)
   /\ readdirSync "tests/sample"
      = Ok ["a.py"; ".hidden"; "results.snap"; "jsfmt.spec.js"; "sub"; "b.py"]
   /\ "a.py" ∈ ["a.py"; ".hidden"; "results.snap"; "jsfmt.spec.js"; "sub"; "b.py"]
   /\ is_fixture "tests/sample" "a.py" = Ok true
   /\ readFileSync ("tests/sample" +:+ "/" +:+ "a.py") = Ok ("x = 1" +:+ Str.CRLF)
   /\ "python3" ∈ selected_interpreters "*"
   /\ "python_alt" ∈ ["python_alt"])
  /\ exists (l : loc) verification,
       store (fst Sample.run) !! l
       = Some (merged_options (with_defaults None) "python" "python3")
       /\ verification ∈ tests (fst Sample.run)
       /\ test_name verification = "a.py" +:+ " - " +:+ "python_alt" +:+ "-verify"
       /\ forall (h : Store) current,
            h !! l = Some current ->
            exists updated,
              fst (run_test verification h) = <[l := updated]> h
              /\ fst (run_test verification h) !! l = Some updated
              /\ updated !! "parser" = Some (JStr "python_alt")
              /\ (forall key : string, key <> "parser" -> updated !! key = current !! key)
              /\ (forall l' : loc, l' <> l ->
                    fst (run_test verification h) !! l' = h !! l').
Proof.
  split.
  - split; [exact sample_run_completes|]. split; [reflexivity|].
    split; [exact sample_entry_a|]. split; [reflexivity|]. split; [reflexivity|].
    split; [exact sample_python3_selected | exact sample_alternate].
  - exact (@C10_reference_options_mutated Sample.host Sample.loaded
             "tests/sample" "python" ["python_alt"] "*" None Sample.start (fst Sample.run)
             ["a.py"; ".hidden"; "results.snap"; "jsfmt.spec.js"; "sub"; "b.py"]
             "a.py" ("x = 1" +:+ Str.CRLF) "python3" "python_alt"
             sample_run_completes eq_refl sample_entry_a eq_refl eq_refl
             sample_python3_selected sample_alternate).
Defined.

(** ** Resolution on a host with a distribution build *)

(** C4 on a host whose first candidate is a distribution build of Python
    2.7 that reports [2.7.15+]: resolution throws, though the next
    candidate, [python2], qualifies and is what resolution returns when the
    build is not among the candidates.  The file does not load on such a
    host. *)
Lemma C4_unparsable_version_is_fatal_witness :
  (Forall (@passed_over Sample.host_distribution "2.*") []
   /\ status (@spawnSync Sample.host_distribution "python2.7" probe_args) = Some 0%Z
   /\ @semver_satisfies Sample.host_distribution
        (@reported_version Sample.host_distribution "python2.7") "2.*"
      = Throw (Sample.invalid_version "2.7.15+"))
  /\ @getPythonBinAndVersion Sample.host_distribution
       ([] ++ "python2.7" :: ["python2"; "python"]) "2.*"
     = Throw (Sample.invalid_version "2.7.15+")
  /\ @qualifies Sample.host_distribution "2.*" "python2" = Ok true
  /\ @getPythonBinAndVersion Sample.host_distribution ["python2"; "python"] "2.*"
     = Ok (Some ("python2", "2.7.15"))
  /\ (@Loaded Sample.host_distribution -> False).
Proof.
  split; [split; [constructor | split; reflexivity]|].
  split.
  { exact (@C4_unparsable_version_is_fatal Sample.host_distribution
             [] "python2.7" ["python2"; "python"] "2.*"
             (Sample.invalid_version "2.7.15+")
             (Forall_nil_2 _) eq_refl eq_refl). }
  split; [reflexivity|]. split; [reflexivity|].
  intros [binding2 binding3 Hresolved _]. discriminate Hresolved.
Defined.

(** ** The round trip of a tree whose error list is [null] *)

Lemma null_errors_run_completes :
  Sample.run_null_errors = (fst Sample.run_null_errors, Ok tt).
Proof.
  rewrite (surjective_pairing Sample.run_null_errors) at 1.
  apply (f_equal (pair (fst Sample.run_null_errors))). vm_compute. reflexivity.
Qed.

Lemma null_errors_python3_selected :
  "python3" ∈ @selected_interpreters Sample.host_null_errors Sample.loaded_null_errors "3.*".
Proof.
  assert (@selected_interpreters Sample.host_null_errors Sample.loaded_null_errors "3.*"
          = ["python3"]) as -> by (vm_compute; reflexivity).
  apply list_elem_of_here.
Qed.

Lemma null_errors_distinct (source : string) :
  NoDup (List.map fst [("ast_type", JStr "Module"); ("errors", JNull);
                       ("source", JStr source)]).
Proof. apply distinct_NoDup. reflexivity. Qed.

(** C1 on the host whose parser reports [null] for its error list and whose
    formatter spoils the text: the round-trip test of [a.py] under
    [python3] passes on every store, though the two trees are not equal. *)
Lemma C1_null_errors_skip_equality_witness :
  let source := Str.replace_crlf ("x = 1" +:+ Str.CRLF) in
  let merged := merged_options (with_defaults None) "python" "python3" in
  let props := [("ast_type", JStr "Module"); ("errors", JNull);
                ("source", JStr source)] in
  let ast := JObj [("ast_type", JStr "Module"); ("errors", JObj []);
                   ("source", JStr source)] in
  let ppast := JObj [("ast_type", JStr "Module"); ("errors", JObj []);
                     ("source", JStr ("<<" +:+ source))] in
  (env_truthy (@AST_COMPARE Sample.host_null_errors) = true
   /\ Sample.run_null_errors = (fst Sample.run_null_errors, Ok tt)
   /\ @readdirSync Sample.host_null_errors "tests/sample"
      = Ok ["a.py"; ".hidden"; "results.snap"; "jsfmt.spec.js"; "sub"; "b.py"]
   /\ "a.py" ∈ ["a.py"; ".hidden"; "results.snap"; "jsfmt.spec.js"; "sub"; "b.py"]
   /\ @is_fixture Sample.host_null_errors "tests/sample" "a.py" = Ok true
   /\ @readFileSync Sample.host_null_errors ("tests/sample" +:+ "/" +:+ "a.py")
      = Ok ("x = 1" +:+ Str.CRLF)
   /\ "python3"
      ∈ @selected_interpreters Sample.host_null_errors Sample.loaded_null_errors "3.*"
   /\ @prettier_debug_parse Sample.host_null_errors source merged = Ok (JObj props)
   /\ NoDup (List.map fst props)
   /\ obj_get props "errors" = Some JNull)
  /\ @parse Sample.host_null_errors source merged = Ok ast
  /\ @massageAST Sample.host_null_errors ast merged = Ok ast
  /\ @reparse Sample.host_null_errors source "tests/sample/a.py" merged merged
     = (ppast, JNull)
  /\ @jest_equals Sample.host_null_errors ast ppast = false
  /\ exists round_trip,
       round_trip ∈ tests (fst Sample.run_null_errors)
       /\ test_name round_trip = "tests/sample/a.py parse"
       /\ forall h : Store, snd (run_test round_trip h) = Ok tt.
Proof.
  intros source merged props ast ppast.
  assert (Hreparse :
    @reparse Sample.host_null_errors source "tests/sample/a.py" merged merged
    = (ppast, JNull)) by (vm_compute; reflexivity).
  split.
  { split; [reflexivity|]. split; [exact null_errors_run_completes|].
    split; [reflexivity|]. split; [exact sample_entry_a|]. split; [reflexivity|].
    split; [reflexivity|]. split; [exact null_errors_python3_selected|].
    split; [reflexivity|]. split; [apply null_errors_distinct | reflexivity]. }
  split; [reflexivity|]. split; [reflexivity|]. split; [exact Hreparse|].
  split; [vm_compute; reflexivity|].
  destruct (@C1_null_errors_skip_equality Sample.host_null_errors Sample.loaded_null_errors
              "tests/sample" "python" [] "3.*" None Sample.start
              (fst Sample.run_null_errors)
              ["a.py"; ".hidden"; "results.snap"; "jsfmt.spec.js"; "sub"; "b.py"]
              "a.py" ("x = 1" +:+ Str.CRLF) "python3" props
              eq_refl null_errors_run_completes eq_refl sample_entry_a eq_refl eq_refl
              null_errors_python3_selected eq_refl (null_errors_distinct source) eq_refl)
    as (_ & nopts & astM & round_trip & Hn & _ & Hin & Hname & _ & Hpass).
  injection Hn as <-.
  exists round_trip. split; [exact Hin|]. split; [exact Hname|].
  intros h. apply Hpass. split; vm_compute; [reflexivity | discriminate].
Defined.

(** ** Witnesses of the further properties *)


(** [stripped_fixed] on a node of a Python tree. *)
Lemma stripped_fixed_witness :
  (proto_free (JObj [("ast_type", JStr "Name"); ("id", JStr "x"); ("ctx", JArr [JNum 1])])
   = true
   /\ stripped (JObj [("ast_type", JStr "Name"); ("id", JStr "x"); ("ctx", JArr [JNum 1])])
      = true)
  /\ stripExtraNonComparableKeys
       (JObj [("ast_type", JStr "Name"); ("id", JStr "x"); ("ctx", JArr [JNum 1])])
     = JObj [("ast_type", JStr "Name"); ("id", JStr "x"); ("ctx", JArr [JNum 1])].
Proof.
  split; [split; reflexivity|].
  apply (stripped_fixed
           (JObj [("ast_type", JStr "Name"); ("id", JStr "x"); ("ctx", JArr [JNum 1])]));
    reflexivity.
Defined.

(** [strip_idempotent] on a node with a ["text"] and a [null]. *)
Lemma strip_idempotent_witness :
  proto_free (JObj [("ast_type", JStr "Return"); ("text", JStr "return"); ("value", JNull)])
  = true
  /\ stripExtraNonComparableKeys
       (stripExtraNonComparableKeys
          (JObj [("ast_type", JStr "Return"); ("text", JStr "return"); ("value", JNull)]))
     = JObj [("ast_type", JStr "Return"); ("value", JObj [])].
Proof.
  split; [reflexivity|].
  rewrite (strip_idempotent
             (JObj [("ast_type", JStr "Return"); ("text", JStr "return"); ("value", JNull)])
             eq_refl).
  reflexivity.
Defined.

(** [strip_object_shape] on a node with a ["text"] and a [null]. *)
Lemma strip_object_shape_witness :
  (proto_free (JObj [("ast_type", JStr "Return"); ("text", JStr "return");
                     ("value", JNull)]) = true
   /\ NoDup (List.map fst [("ast_type", JStr "Return"); ("text", JStr "return");
                           ("value", JNull)]))
  /\ stripExtraNonComparableKeys
       (JObj [("ast_type", JStr "Return"); ("text", JStr "return"); ("value", JNull)])
     = JObj (strip_props [("ast_type", JStr "Return"); ("text", JStr "return");
                          ("value", JNull)]).
Proof.
  assert (NoDup (List.map fst [("ast_type", JStr "Return"); ("text", JStr "return");
                               ("value", JNull)])) as Hnd.
  { apply distinct_NoDup. reflexivity. }
  split; [split; [reflexivity | exact Hnd]|].
  exact (strip_object_shape
           [("ast_type", JStr "Return"); ("text", JStr "return"); ("value", JNull)]
           eq_refl Hnd).
Defined.

(** [selected_interpreter_probed] for [python3] on the sample host. *)
Lemma selected_interpreter_probed_witness :
  "python3" ∈ selected_interpreters "*"
  /\ ("python3" ∈ ["python2.7"; "python2"; "python3.6"; "python3"; "python"]
      /\ status (spawnSync "python3" probe_args) = Some 0%Z
      /\ semver_satisfies (reported_version "python3") "*" = Ok true
      /\ (semver_satisfies (reported_version "python3") "2.*" = Ok true
          \/ semver_satisfies (reported_version "python3") "3.*" = Ok true)).
Proof.
  split; [exact sample_python3_selected|].
  exact (@selected_interpreter_probed Sample.host Sample.loaded "*" "python3"
           sample_python3_selected).
Defined.

(** [run_spec_added] on the sample host: two fixtures, two interpreters,
    two tests of the builder and three tests of each pair. *)
Lemma run_spec_added_witness :
  (readdirSync "tests/sample"
   = Ok ["a.py"; ".hidden"; "results.snap"; "jsfmt.spec.js"; "sub"; "b.py"]
   /\ run_spec "tests/sample" (Some ["python"; "python_alt"]) "*" None Sample.start
      = (fst Sample.run, Ok tt))
  /\ length (tests (fst Sample.run)) = 16
  /\ length (store (fst Sample.run)) = 4.
Proof.
  split; [split; [reflexivity | exact sample_run_completes]|].
  destruct (@run_spec_added Sample.host Sample.loaded
              "tests/sample" "python" ["python_alt"] "*" None
              ["a.py"; ".hidden"; "results.snap"; "jsfmt.spec.js"; "sub"; "b.py"]
              Sample.start (fst Sample.run) eq_refl sample_run_completes)
    as [Htests Hstore].
  split.
  - rewrite Htests. vm_compute. reflexivity.
  - rewrite Hstore, length_app, length_concat. vm_compute. reflexivity.
Defined.

Lemma spoiling_run_completes :
  @run_spec Sample.host_spoiling Sample.loaded_spoiling "tests/sample" (Some ["python"]) "3.*" None Sample.start
  = (fst (@run_spec Sample.host_spoiling Sample.loaded_spoiling "tests/sample" (Some ["python"]) "3.*" None
            Sample.start),
     Ok tt).
Proof.
  rewrite (surjective_pairing
             (@run_spec Sample.host_spoiling Sample.loaded_spoiling "tests/sample" (Some ["python"]) "3.*" None
                Sample.start)) at 1.
  apply (f_equal (pair _)). vm_compute. reflexivity.
Qed.

Lemma spoiling_python3_selected :
  "python3" ∈ @selected_interpreters Sample.host_spoiling Sample.loaded_spoiling "3.*".
Proof.
  assert (@selected_interpreters Sample.host_spoiling Sample.loaded_spoiling "3.*" = ["python3"]) as ->
    by (vm_compute; reflexivity).
  apply list_elem_of_here.
Qed.

(** [reparse_failure_fails] on the host whose formatter spoils the text. *)
Lemma reparse_failure_fails_witness :
  (env_truthy (@AST_COMPARE Sample.host_spoiling) = true
   /\ @readdirSync Sample.host_spoiling "tests/sample"
      = Ok ["a.py"; ".hidden"; "results.snap"; "jsfmt.spec.js"; "sub"; "b.py"]
   /\ "a.py" ∈ ["a.py"; ".hidden"; "results.snap"; "jsfmt.spec.js"; "sub"; "b.py"]
   /\ @is_fixture Sample.host_spoiling "tests/sample" "a.py" = Ok true
   /\ @readFileSync Sample.host_spoiling ("tests/sample" +:+ "/" +:+ "a.py")
      = Ok ("x = 1" +:+ Str.CRLF)
   /\ "python3" ∈ @selected_interpreters Sample.host_spoiling Sample.loaded_spoiling "3.*"
   /\ @normalizeOptions Sample.host_spoiling
        (merged_options (with_defaults None) "python" "python3")
      = Ok (merged_options (with_defaults None) "python" "python3")
   /\ snd (@reparse Sample.host_spoiling (Str.replace_crlf ("x = 1" +:+ Str.CRLF))
             ("tests/sample" +:+ "/" +:+ "a.py")
             (merged_options (with_defaults None) "python" "python3")
             (merged_options (with_defaults None) "python" "python3"))
      <> JNull)
  /\ exists round_trip,
       round_trip
       ∈ tests (fst (@run_spec Sample.host_spoiling Sample.loaded_spoiling "tests/sample" (Some ["python"])
                       "3.*" None Sample.start))
       /\ test_name round_trip = "tests/sample/a.py parse"
       /\ forall h : Store, snd (run_test round_trip h) <> Ok tt.
Proof.
  assert (Hthrew :
    snd (@reparse Sample.host_spoiling (Str.replace_crlf ("x = 1" +:+ Str.CRLF))
           ("tests/sample" +:+ "/" +:+ "a.py")
           (merged_options (with_defaults None) "python" "python3")
           (merged_options (with_defaults None) "python" "python3"))
    <> JNull) by (vm_compute; discriminate).
  split.
  - split; [reflexivity|]. split; [reflexivity|]. split; [exact sample_entry_a|].
    split; [reflexivity|]. split; [reflexivity|].
    split; [exact spoiling_python3_selected|]. split; [reflexivity | exact Hthrew].
  - destruct (@reparse_failure_fails Sample.host_spoiling Sample.loaded_spoiling
                "tests/sample" "python" [] "3.*" None Sample.start _
                ["a.py"; ".hidden"; "results.snap"; "jsfmt.spec.js"; "sub"; "b.py"]
                "a.py" ("x = 1" +:+ Str.CRLF) "python3"
                (merged_options (with_defaults None) "python" "python3")
                eq_refl spoiling_run_completes eq_refl sample_entry_a eq_refl eq_refl
                spoiling_python3_selected eq_refl Hthrew)
      as (round_trip & Hin & Hname & Hrun).
    exists round_trip. split; [exact Hin|]. split; [exact Hname|].
    intros h. rewrite Hrun. discriminate.
Defined.
